(** * Function calling with reasoning models: the tool-call resolution loop

    A shallow embedding of [examples/reasoning_function_calls.ipynb]:
    the helper [invoke_functions_from_response], the single-call snippet
    that precedes it, the [previous_response_id] response loop and the
    manually orchestrated conversation loop, together with the fake tool
    [get_city_uuid].

    Python effects are explicit.  A computation runs in a notebook state
    (standard output, the requests sent to the remote service, the globals
    [conversation] and [total_tokens_used], and the state the tools can see)
    and either returns, raises, or is left waiting for the remote service. *)

From Stdlib Require Import ZArith NArith String Ascii List Lia Bool.
From stdpp Require Import base option list strings gmap sorting.

Local Open Scope string_scope.
Local Open Scope list_scope.
Local Open Scope Z_scope.
Set Warnings "-register-all".

(** ** Python values and exceptions, as the notebook observes them *)

(** The value [json.loads] returns.  The notebook only formats it
    ([f"{arguments}"], [f"{city}"]) and unpacks it with [**]; a [str] is its
    own text, a [dict] has its items and its printed form, and any other
    value (a number, a list, [None]) is known by the name of its type and
    its printed form. *)
Inductive pyobj : Type :=
| PyStr (s : string)
| PyDict (repr : string) (items : list (string * pyobj))
| PyOther (type_name repr : string).

Definition py_str (v : pyobj) : string :=
  match v with
  | PyStr s => s
  | PyDict repr _ => repr
  | PyOther _ repr => repr
  end.

(** A raised exception: the name of its class, whether the class derives
    from [Exception] (the test [except Exception] makes; [KeyboardInterrupt],
    [SystemExit] and [GeneratorExit] derive from [BaseException] only), and
    [str(e)]. *)
Record pyexc : Type := PyExc {
  exc_type : string;
  is_Exception : bool;
  exc_str : string
}.

Definition ValueError (msg : string) : pyexc := PyExc "ValueError" true msg.
Definition TypeError (msg : string) : pyexc := PyExc "TypeError" true msg.
Definition JSONDecodeError (msg : string) : pyexc := PyExc "JSONDecodeError" true msg.
Definition OverflowError (msg : string) : pyexc := PyExc "OverflowError" true msg.
Definition KeyboardInterrupt : pyexc := PyExc "KeyboardInterrupt" false "".
Definition SystemExit (code : string) : pyexc := PyExc "SystemExit" false code.

(** How a computation ends. [Awaiting] is a call to the remote service that
    has not been answered. *)
Inductive completion (A : Type) : Type :=
| Returns (a : A)
| Raises (e : pyexc)
| Awaiting.
Arguments Returns {A} a.
Arguments Raises {A} e.
Arguments Awaiting {A}.

(** ** The Responses API objects *)

Inductive content_part : Type :=
| ResponseOutputText (text : string)
| ResponseOutputRefusal (refusal : string).

(** [response.output] items: the three kinds the notebook handles and the
    other kinds the API can return, which every filter of the notebook
    skips. *)
Inductive output_item : Type :=
| ResponseReasoningItem (id : string) (summary : list string)
| ResponseFunctionToolCall (arguments call_id name id : string)
| ResponseOutputMessage (id : string) (content : list content_part)
| ResponseFileSearchToolCall (id : string)
| ResponseFunctionWebSearch (id : string)
| ResponseComputerToolCall (id call_id : string).

Definition type (rx : output_item) : string :=
  match rx with
  | ResponseReasoningItem _ _ => "reasoning"
  | ResponseFunctionToolCall _ _ _ _ => "function_call"
  | ResponseOutputMessage _ _ => "message"
  | ResponseFileSearchToolCall _ => "file_search_call"
  | ResponseFunctionWebSearch _ => "web_search_call"
  | ResponseComputerToolCall _ _ => "computer_call"
  end.

Module Response.
Record t : Type := Build {
  id : string;
  output : list output_item;
  total_tokens : Z  (* response.usage.total_tokens *)
}.
End Response.
Abbreviation Response := Response.t.

(** [response.output_text]: the texts of the [output_text] parts of the
    message items, joined. *)
Definition content_text (c : content_part) : string :=
  match c with
  | ResponseOutputText text => text
  | ResponseOutputRefusal _ => ""
  end.

Definition item_text (rx : output_item) : string :=
  match rx with
  | ResponseOutputMessage _ content => String.concat "" (map content_text content)
  | _ => ""
  end.

Definition output_text (response : Response) : string :=
  String.concat "" (map item_text (Response.output response)).

(** Items of the conversation: the dictionaries the notebook builds. *)
Inductive conversation_item : Type :=
| user_message (content : string)
    (* {"role": "user", "type": "message", "content": content} *)
| to_dict (rx : output_item)
    (* rx.to_dict() *)
| function_call_output (call_id output : string).
    (* {"type": "function_call_output", "call_id": ..., "output": ...} *)

(** What a request carries besides the static [MODEL_DEFAULTS]. *)
Inductive request_input : Type :=
| InputText (s : string)
| InputItems (items : list conversation_item).

Record request : Type := Request {
  input : request_input;
  previous_response_id : option string
}.

(** Lines written by [print].  The two lines whose text depends on the
    [repr] of library objects are kept structured. *)
Inductive printed : Type :=
| line (s : string)
| reasoning_step (summary : list string)
    (* f'Reasoning step: {response_item.summary}' *)
| total_line (total : Z).
    (* f"Total tokens used: {total} ({total / 200_000:.2%} of ...)" *)

Declare Scope py_scope.
Delimit Scope py_scope with py.

Section Notebook.

(** The state the tool functions can read and change (for [get_city_uuid],
    the entropy [uuid4] draws from). *)
Variable World : Type.

(** [json.loads] on a [str]: the value, or the message of the
    [JSONDecodeError] it raises. *)
Variable json_loads : string -> pyobj + string.

Record notebook : Type := Notebook {
  world : World;
  stdout : list printed;
  requests : list request;          (* sent to the remote service, oldest first *)
  conversation : list conversation_item;
  total_tokens_used : Z
}.

(** A tool of the registry, applied as [target_tool( **arguments )]: the
    call ends, by returning a string or by raising (also when the
    arguments cannot be bound to its parameters), and may change the
    world. *)
Definition tool : Type := pyobj -> World -> (string + pyexc) * World.

Definition Py (A : Type) : Type := notebook -> completion A * notebook.

Definition ret {A} (a : A) : Py A := fun nb => (Returns a, nb).

Definition bind {A B} (c : Py A) (k : A -> Py B) : Py B :=
  fun nb =>
    match c nb with
    | (Returns a, nb') => k a nb'
    | (Raises e, nb') => (Raises e, nb')
    | (Awaiting, nb') => (Awaiting, nb')
    end.

Definition raise {A} (e : pyexc) : Py A := fun nb => (Raises e, nb).

(** [try: body except Exception as e: handler e]. *)
Definition try_except_Exception {A} (body : Py A) (handler : pyexc -> Py A) : Py A :=
  fun nb =>
    match body nb with
    | (Raises e, nb') =>
        if is_Exception e then handler e nb' else (Raises e, nb')
    | r => r
    end.

Definition print (p : printed) : Py unit :=
  fun nb =>
    (Returns tt,
     Notebook (world nb) (stdout nb ++ [p]) (requests nb)
              (conversation nb) (total_tokens_used nb)).

Definition call (target_tool : tool) (arguments : pyobj) : Py string :=
  fun nb =>
    let '(r, w) := target_tool arguments (world nb) in
    (match r with inl s => Returns s | inr e => Raises e end,
     Notebook w (stdout nb) (requests nb)
              (conversation nb) (total_tokens_used nb)).

Definition loads (s : string) : Py pyobj :=
  match json_loads s with
  | inl v => ret v
  | inr msg => raise (JSONDecodeError msg)
  end.

(** [client.responses.create(input=..., previous_response_id=...)] sends
    the request; the response is the next one of the script of the run.
    A request that fails in the client is outside the model. *)
Definition send (r : request) : Py unit :=
  fun nb =>
    (Returns tt,
     Notebook (world nb) (stdout nb) (requests nb ++ [r])
              (conversation nb) (total_tokens_used nb)).

Definition awaiting {A} : Py A := fun nb => (Awaiting, nb).

(** [conversation.extend(items)] *)
Definition extend (items : list conversation_item) : Py unit :=
  fun nb =>
    (Returns tt,
     Notebook (world nb) (stdout nb) (requests nb)
              (conversation nb ++ items) (total_tokens_used nb)).

(** [total_tokens_used += n] *)
Definition add_tokens (n : Z) : Py unit :=
  fun nb =>
    (Returns tt,
     Notebook (world nb) (stdout nb) (requests nb)
              (conversation nb) (total_tokens_used nb + n)).

Definition get_conversation : Py (list conversation_item) :=
  fun nb => (Returns (conversation nb), nb).

Definition get_total_tokens_used : Py Z :=
  fun nb => (Returns (total_tokens_used nb), nb).

Notation "x <- c ;; k" := (bind c (fun x => k))
  (at level 100, c at next level, right associativity) : py_scope.
Notation "c ;; k" := (bind c (fun _ => k))
  (at level 100, right associativity) : py_scope.
Local Open Scope py_scope.

(** [if b: body] *)
Definition when (b : bool) (body : Py unit) : Py unit :=
  if b then body else ret tt.

(** [for x in l: acc = body x acc] *)
Fixpoint for_loop {A B} (l : list A) (body : A -> B -> Py B) (acc : B) : Py B :=
  match l with
  | [] => ret acc
  | x :: l' => acc' <- body x acc ;; for_loop l' body acc'
  end.

(** ** [invoke_functions_from_response] *)

Definition no_tool_registered (name : string) : string :=
  "ERROR - No tool registered for function call: " +:+ name.

Definition error_executing (name : string) (e : pyexc) : string :=
  "Error executing function call: " +:+ name +:+ ": " +:+ exc_str e.

(** The value the loop body binds to [tool_output] for a function call.
    [tool_mapping.get(name)] is [None] for a name that is not registered,
    and a registered function is truthy. *)
Definition tool_output_for (tool_mapping : gmap string tool)
    (name arguments : string) : Py string :=
  match tool_mapping !! name with
  | Some target_tool =>
      try_except_Exception
        (arguments <- loads arguments ;;
         print (line ("Invoking tool: " +:+ name +:+ "("
                      +:+ py_str arguments +:+ ")")) ;;
         call target_tool arguments)
        (fun e =>
           let msg := error_executing name e in
           print (line msg) ;; ret msg)
  | None =>
      let msg := no_tool_registered name in
      print (line msg) ;; ret msg
  end.

(** The body of its [for response_item in response.output] loop. *)
Definition resolve_item (tool_mapping : gmap string tool)
    (response_item : output_item)
    (intermediate_messages : list conversation_item)
  : Py (list conversation_item) :=
  match response_item with
  | ResponseFunctionToolCall arguments call_id name _ =>
      tool_output <- tool_output_for tool_mapping name arguments ;;
      ret (intermediate_messages ++ [function_call_output call_id tool_output])
  | ResponseReasoningItem _ summary =>
      print (reasoning_step summary) ;; ret intermediate_messages
  | _ => ret intermediate_messages
  end.

Definition invoke_functions_from_response (response : Response)
    (tool_mapping : gmap string tool) : Py (list conversation_item) :=
  for_loop (Response.output response) (resolve_item tool_mapping) [].

(** ** The single-call snippet that precedes it *)

Definition has_type (t : string) (rx : output_item) : bool :=
  String.eqb (type rx) t.

Definition extract_item (tool_mapping : gmap string tool)
    (function_call : output_item)
    (new_conversation_items : list conversation_item)
  : Py (list conversation_item) :=
  match function_call with
  | ResponseFunctionToolCall arguments call_id name _ =>
      match tool_mapping !! name with
      | None => raise (ValueError ("No tool found for function call: " +:+ name))
      | Some target_tool =>
          arguments <- loads arguments ;;
          tool_output <- call target_tool arguments ;;
          ret (new_conversation_items
                 ++ [function_call_output call_id tool_output])
      end
  | _ => ret new_conversation_items
  end.

Definition extract_function_calls (response : Response)
    (tool_mapping : gmap string tool) : Py (list conversation_item) :=
  let function_calls :=
    List.filter (has_type "function_call") (Response.output response) in
  for_loop function_calls (extract_item tool_mapping) [].

(** ** The loops of the notebook *)

(** The global [tool_mapping], the default of
    [invoke_functions_from_response]. *)
Variable tool_mapping : gmap string tool.

(** The responses of the remote service are given as the script of the run:
    the list of the responses it will send, in order.  A request sent when
    the script is exhausted is left [Awaiting]. *)

(** *** The [previous_response_id] response loop *)

(** [while True:] with [response] the response in hand. *)
Fixpoint previous_response_loop (script : list Response) (response : Response)
  : Py unit :=
  function_responses <- invoke_functions_from_response response tool_mapping ;;
  if (length function_responses =? 0)%nat then
    print (line (output_text response))                       (* break *)
  else
    print (line "More reasoning required, continuing...") ;;
    send (Request (InputItems function_responses)
                  (Some (Response.id response))) ;;
    match script with
    | [] => awaiting
    | response' :: script' => previous_response_loop script' response'
    end.

Definition previous_response_cell (initial_question : string)
    (script : list Response) : Py unit :=
  send (Request (InputText initial_question) None) ;;
  match script with
  | [] => awaiting
  | response :: script' => previous_response_loop script' response
  end.

(** *** Manual conversation orchestration *)

Definition newline : string := String (ascii_of_nat 10) "".

Definition summary_texts (r : conversation_item) : list string :=
  match r with
  | to_dict (ResponseReasoningItem _ summary) => summary
  | _ => []
  end.

(** [[val for pair in zip(function_calls, function_outputs) for val in pair]] *)
Definition interleave (function_calls function_outputs : list conversation_item)
  : list conversation_item :=
  flat_map (fun pair => [fst pair; snd pair])
           (combine function_calls function_outputs).

(** The body of the response loop once the response has arrived; it
    returns [true] when it reaches [break]. *)
Definition response_cycle (response : Response) : Py bool :=
  add_tokens (Response.total_tokens response) ;;
  let reasoning :=
    map to_dict (List.filter (has_type "reasoning") (Response.output response)) in
  let function_calls :=
    map to_dict (List.filter (has_type "function_call") (Response.output response)) in
  let messages :=
    map to_dict (List.filter (has_type "message") (Response.output response)) in
  when (0 <? length reasoning)%nat
    (print (line "More reasoning required, continuing...") ;;
     extend reasoning ;;
     print (line (String.concat newline (flat_map summary_texts reasoning)))) ;;
  when (0 <? length function_calls)%nat
    (function_outputs <- invoke_functions_from_response response tool_mapping ;;
     extend (interleave function_calls function_outputs)) ;;
  when (0 <? length messages)%nat
    (print (line (output_text response)) ;;
     extend messages) ;;
  ret (length function_calls =? 0)%nat.

(** [while True:  # Response loop]; it returns the rest of the script. *)
Fixpoint response_loop (script : list Response) : Py (list Response) :=
  conversation <- get_conversation ;;
  send (Request (InputItems conversation) None) ;;
  match script with
  | [] => awaiting
  | response :: script' =>
      done <- response_cycle response ;;
      if done then ret script' else response_loop script'
  end.

Definition stars : string := String.concat "" (repeat "*" 79).

Definition banner (message : string) : string :=
  stars +:+ newline +:+ "User message: " +:+ message +:+ newline +:+ stars.

(** [for message in user_messages:] *)
Fixpoint user_turns (user_messages : list string) (script : list Response)
  : Py (list Response) :=
  match user_messages with
  | [] => ret script
  | message :: user_messages' =>
      print (line (banner message)) ;;
      extend [user_message message] ;;
      script' <- response_loop script ;;
      user_turns user_messages' script'
  end.

(** [total_tokens_used = 0] and [conversation = []] *)
Definition initialise : Py unit :=
  fun nb =>
    (Returns tt, Notebook (world nb) (stdout nb) (requests nb) [] 0).

(** The first integer whose decimal text is longer than the 4300 digits
    CPython converts by default. *)
Definition int_str_limit : Z := 10 ^ 4300.

(** The least [total] for which [total / 200_000], rounded to the nearest
    float, is beyond the largest float. *)
Definition float_division_bound : Z := 200000 * (2 ^ 1024 - 2 ^ 970).

(** [print(f"Total tokens used: {total} ({total / 200_000:.2%} of ...)")]:
    the text of [total] is formatted first, then the quotient is computed
    as a float; either step raises for a total that is too large
    (CPython 3.11). *)
Definition print_total (total : Z) : Py unit :=
  if int_str_limit <=? Z.abs total then
    raise (ValueError
      "Exceeds the limit (4300 digits) for integer string conversion; use sys.set_int_max_str_digits() to increase the limit")
  else if float_division_bound <=? Z.abs total then
    raise (OverflowError "integer division result too large for a float")
  else print (total_line total).

Definition manual_orchestration (user_messages : list string)
    (script : list Response) : Py unit :=
  initialise ;;
  user_turns user_messages script ;;
  total <- get_total_tokens_used ;;
  print_total total.

End Notebook.

Arguments Notebook {World}.
Arguments world {World}.
Arguments stdout {World}.
Arguments requests {World}.
Arguments conversation {World}.
Arguments total_tokens_used {World}.
Arguments ret {World A}.
Arguments bind {World A B}.
Arguments raise {World A}.
Arguments awaiting {World A}.
Arguments print {World}.
Arguments send {World}.
Arguments extend {World}.
Arguments add_tokens {World}.
Arguments call {World}.
Arguments loads {World}.
Arguments try_except_Exception {World A}.
Arguments for_loop {World A B}.
Arguments when {World}.
Arguments tool_output_for {World}.
Arguments resolve_item {World}.
Arguments invoke_functions_from_response {World}.
Arguments extract_item {World}.
Arguments extract_function_calls {World}.
Arguments previous_response_loop {World}.
Arguments previous_response_cell {World}.
Arguments response_cycle {World}.
Arguments response_loop {World}.
Arguments user_turns {World}.
Arguments print_total {World}.
Arguments manual_orchestration {World}.
Arguments initialise {World}.
Arguments get_conversation {World}.
Arguments get_total_tokens_used {World}.

Notation "x <- c ;; k" := (bind c (fun x => k))
  (at level 100, c at next level, right associativity) : py_scope.
Notation "c ;; k" := (bind c (fun _ => k))
  (at level 100, right associativity) : py_scope.

(** ** The fake tool [get_city_uuid]

    [uuid4] and [str] of a [UUID] follow CPython's [uuid] module: sixteen
    bytes of [os.urandom], the variant and version bits forced, and the
    integer written as 32 hexadecimal digits in groups 8-4-4-4-12. *)

Module Uuid.

(** The operating system's entropy: [urandom n] is the [n]-th read of
    sixteen bytes, as a big-endian integer. *)
Record entropy : Type := Entropy {
  urandom : nat -> N;
  reads : nat
}.

Definition os_urandom_16 (w : entropy) : N * entropy :=
  ((urandom w (reads w) mod 2 ^ 128)%N, Entropy (urandom w) (S (reads w))).

(** [UUID.__init__(bytes=..., version=version)] *)
Definition with_version (version int : N) : N :=
  let int := N.ldiff int (N.shiftl 0xc000 48) in
  let int := N.lor int (N.shiftl 0x8000 48) in
  let int := N.ldiff int (N.shiftl 0xf000 64) in
  N.lor int (N.shiftl version 76).

Definition hex_digit (d : N) : ascii :=
  if (d <? 10)%N then ascii_of_N (48 + d) else ascii_of_N (87 + d).

(** ['%0<digits>x' % n], for [n] below [16 ^ digits] *)
Fixpoint hex (digits : nat) (n : N) : string :=
  match digits with
  | O => ""
  | S digits' =>
      hex digits' (n / 16)%N +:+ String (hex_digit (n mod 16)%N) ""
  end.

(** [UUID.__str__] *)
Definition str (int : N) : string :=
  let hex := hex 32 int in
  substring 0 8 hex +:+ "-" +:+ substring 8 4 hex +:+ "-"
    +:+ substring 12 4 hex +:+ "-" +:+ substring 16 4 hex +:+ "-"
    +:+ substring 20 12 hex.

Definition uuid4 (w : entropy) : N * entropy :=
  let '(bytes, w') := os_urandom_16 w in
  (with_version 4 bytes, w').

End Uuid.

(** [def get_city_uuid(city: str) -> str] *)
Definition get_city_uuid (city : string) (w : Uuid.entropy)
  : string * Uuid.entropy :=
  let '(u, w') := Uuid.uuid4 w in
  let uuid := Uuid.str u in
  (city +:+ " ID: " +:+ uuid, w').

(** The call [get_city_uuid( **arguments )]: the keyword arguments are
    bound to the one parameter [city]; a value that is not a mapping, an
    unexpected keyword or a missing [city] raise [TypeError] (messages of
    CPython 3.11, for the function as the notebook defines it, in
    [__main__]). *)
Definition type_name (v : pyobj) : string :=
  match v with
  | PyStr _ => "str"
  | PyDict _ _ => "dict"
  | PyOther type_name _ => type_name
  end.

Definition get_city_uuid_tool : tool Uuid.entropy :=
  fun arguments w =>
    match arguments with
    | PyDict _ items =>
        match List.find (fun kv => negb (String.eqb (fst kv) "city")) items with
        | Some (k, _) =>
            (inr (TypeError ("get_city_uuid() got an unexpected keyword argument '"
                             +:+ k +:+ "'")), w)
        | None =>
            match items with
            | (_, city) :: _ =>
                let '(s, w') := get_city_uuid (py_str city) w in (inl s, w')
            | [] =>
                (inr (TypeError
                   "get_city_uuid() missing 1 required positional argument: 'city'"),
                 w)
            end
        end
    | _ =>
        (inr (TypeError
                ("__main__.get_city_uuid() argument after ** must be a mapping, not "
                 +:+ type_name arguments)), w)
    end.

(** [tool_mapping = {"get_city_uuid": get_city_uuid}] *)
Definition notebook_tool_mapping : gmap string (tool Uuid.entropy) :=
  {[ "get_city_uuid" := get_city_uuid_tool ]}.

(** ** Vocabulary of the statements *)

(** [rx.call_id] *)
Definition call_id (rx : output_item) : string :=
  match rx with
  | ResponseFunctionToolCall _ call_id _ _ => call_id
  | ResponseComputerToolCall _ call_id => call_id
  | _ => ""
  end.

(** [rx.arguments] *)
Definition arguments (rx : output_item) : string :=
  match rx with
  | ResponseFunctionToolCall arguments _ _ _ => arguments
  | _ => ""
  end.

(** [rx.name] *)
Definition name (rx : output_item) : string :=
  match rx with
  | ResponseFunctionToolCall _ _ name _ => name
  | _ => ""
  end.

(** The three partitions of [response.output] the notebook computes. *)
Definition reasoning_of (response : Response) : list output_item :=
  List.filter (has_type "reasoning") (Response.output response).
Definition function_calls_of (response : Response) : list output_item :=
  List.filter (has_type "function_call") (Response.output response).
Definition messages_of (response : Response) : list output_item :=
  List.filter (has_type "message") (Response.output response).

(** [o] is a [function_call_output] carrying the [call_id] of [rx]. *)
Definition answers (rx : output_item) (o : conversation_item) : Prop :=
  exists output, o = function_call_output (call_id rx) output.

(** [pairs calls outputs]: each call followed by the result with its
    [call_id]. *)
Fixpoint pairs (calls : list output_item) (outputs : list string)
  : list conversation_item :=
  match calls, outputs with
  | rx :: calls', output :: outputs' =>
      to_dict rx :: function_call_output (call_id rx) output
        :: pairs calls' outputs'
  | _, _ => []
  end.

(** Every function call of the log is immediately followed by a result
    with its [call_id], and every result immediately follows its call. *)
Fixpoint answered (log : list conversation_item) : bool :=
  match log with
  | [] => true
  | to_dict (ResponseFunctionToolCall _ c _ _) :: log' =>
      match log' with
      | function_call_output c' _ :: log'' => String.eqb c c' && answered log''
      | _ => false
      end
  | function_call_output _ _ :: _ => false
  | _ :: log' => answered log'
  end.

Definition is_call_with (c : string) (it : conversation_item) : bool :=
  match it with
  | to_dict (ResponseFunctionToolCall _ c' _ _) => String.eqb c' c
  | _ => false
  end.

Definition is_output_with (c : string) (it : conversation_item) : bool :=
  match it with
  | function_call_output c' _ => String.eqb c' c
  | _ => false
  end.

Definition count_calls (c : string) (log : list conversation_item) : nat :=
  length (List.filter (is_call_with c) log).
Definition count_outputs (c : string) (log : list conversation_item) : nat :=
  length (List.filter (is_output_with c) log).

(** What one pass of the response loop appends for [response] when its
    function calls got the results [outputs]. *)
Definition appended_for (response : Response) (outputs : list string)
  : list conversation_item :=
  map to_dict (reasoning_of response)
    ++ pairs (function_calls_of response) outputs
    ++ map to_dict (messages_of response).

(** The request carries a log, and each call of it is answered. *)
Definition request_answered (r : request) : bool :=
  match input r with
  | InputItems items => answered items
  | InputText _ => false
  end.

(** Case-insensitive search of a marker in a tool output. *)
Definition lower (c : ascii) : ascii :=
  let n := nat_of_ascii c in
  if ((65 <=? n) && (n <=? 90))%nat then ascii_of_nat (n + 32) else c.

Fixpoint lowercase (s : string) : string :=
  match s with
  | EmptyString => EmptyString
  | String c s' => String (lower c) (lowercase s')
  end.

Fixpoint contains (needle hay : string) : bool :=
  String.prefix needle hay
  || match hay with
     | EmptyString => false
     | String _ hay' => contains needle hay'
     end.

Definition mentions (marker output : string) : bool :=
  contains (lowercase marker) (lowercase output).

(** The sum of [usage.total_tokens] over responses. *)
Definition sum_tokens (responses : list Response) : Z :=
  foldr (fun response acc => Response.total_tokens response + acc) 0 responses.

(** What one pass of the response loop prints for the reasoning items and
    for the message items. *)
Definition reasoning_prints (response : Response) : list printed :=
  match reasoning_of response with
  | [] => []
  | _ =>
      [line "More reasoning required, continuing...";
       line (String.concat newline
               (flat_map summary_texts (map to_dict (reasoning_of response))))]
  end.

(** What [invoke_functions_from_response] prints for the reasoning items. *)
Definition reasoning_steps (output : list output_item) : list printed :=
  flat_map (fun rx =>
              match rx with
              | ResponseReasoningItem _ summary => [reasoning_step summary]
              | _ => []
              end) output.

Definition message_prints (response : Response) : list printed :=
  match messages_of response with
  | [] => []
  | _ => [line (output_text response)]
  end.

(** One when the computation is left waiting for the remote service. *)
Definition pending {A} (r : completion A) : nat :=
  match r with Awaiting => 1%nat | _ => 0%nat end.

Section Contracts.

Context {World : Type}.

(** The notebook once the tokens of [response] are counted and its
    reasoning items stored. *)
Definition after_reasoning (response : Response) (nb : notebook World)
  : notebook World :=
  Notebook (world nb) (stdout nb ++ reasoning_prints response) (requests nb)
           (conversation nb ++ map to_dict (reasoning_of response))
           (total_tokens_used nb + Response.total_tokens response).

(** The notebook once the message items of [response] are printed and
    stored. *)
Definition after_messages (response : Response) (nb : notebook World)
  : notebook World :=
  Notebook (world nb) (stdout nb ++ message_prints response) (requests nb)
           (conversation nb ++ map to_dict (messages_of response))
           (total_tokens_used nb).

(** The notebook once the conversation is sent as the input of a
    request. *)
Definition sent (nb : notebook World) : notebook World :=
  Notebook (world nb) (stdout nb)
           (requests nb ++ [Request (InputItems (conversation nb)) None])
           (conversation nb) (total_tokens_used nb).

(** The notebook once a user message is announced and stored. *)
Definition begun (message : string) (nb : notebook World) : notebook World :=
  Notebook (world nb) (stdout nb ++ [line (banner message)]) (requests nb)
           (conversation nb ++ [user_message message]) (total_tokens_used nb).

Definition with_stdout (lines : list printed) (nb : notebook World)
  : notebook World :=
  Notebook (world nb) (stdout nb ++ lines) (requests nb)
           (conversation nb) (total_tokens_used nb).

Definition with_request (r : request) (nb : notebook World)
  : notebook World :=
  Notebook (world nb) (stdout nb) (requests nb ++ [r])
           (conversation nb) (total_tokens_used nb).

Definition with_items (items : list conversation_item) (nb : notebook World)
  : notebook World :=
  Notebook (world nb) (stdout nb) (requests nb)
           (conversation nb ++ items) (total_tokens_used nb).

(** The globals the tool machinery never touches. *)
Definition same_globals (nb nb' : notebook World) : Prop :=
  requests nb' = requests nb
  /\ conversation nb' = conversation nb
  /\ total_tokens_used nb' = total_tokens_used nb.

(** A tool whose errors all derive from [Exception]. *)
Definition raises_only_Exception (t : tool World) : Prop :=
  forall arguments w e w', t arguments w = (inr e, w') -> is_Exception e = true.

Definition registry_raises_only_Exception
    (tool_mapping : gmap string (tool World)) : Prop :=
  forall name t, tool_mapping !! name = Some t -> raises_only_Exception t.

(** A tool whose result does not depend on the world it runs in. *)
Definition world_independent (t : tool World) : Prop :=
  forall arguments w1 w2, fst (t arguments w1) = fst (t arguments w2).

Definition registry_world_independent
    (tool_mapping : gmap string (tool World)) : Prop :=
  forall name t, tool_mapping !! name = Some t -> world_independent t.

(** [e] is raised by a registered tool. *)
Definition raised_by_registered_tool
    (tool_mapping : gmap string (tool World)) (e : pyexc) : Prop :=
  exists name t arguments w,
    tool_mapping !! name = Some t /\ fst (t arguments w) = inr e.

(** [output] is what a call of the tool [nm] with the payload [payload]
    leaves as [tool_output]: the marker of an unregistered tool, the
    description of the error, or the string the tool returned in some
    world. *)
Definition describes (json_loads : string -> pyobj + string)
    (tool_mapping : gmap string (tool World)) (nm payload output : string)
  : Prop :=
  match tool_mapping !! nm with
  | None => output = no_tool_registered nm
  | Some t =>
      match json_loads payload with
      | inr msg => output = error_executing nm (JSONDecodeError msg)
      | inl v =>
          exists w,
            match fst (t v w) with
            | inl s => output = s
            | inr e => is_Exception e = true /\ output = error_executing nm e
            end
      end
  end.

(** [o] is the result of resolving the function call [rx]. *)
Definition resolves (json_loads : string -> pyobj + string)
    (tool_mapping : gmap string (tool World))
    (rx : output_item) (o : conversation_item) : Prop :=
  exists output,
    o = function_call_output (call_id rx) output
    /\ describes json_loads tool_mapping (name rx) (arguments rx) output.

(** *** Resolution one call at a time

    The reading of "tool calls are resolved strictly sequentially, one at
    a time, in the order of the response", to compare the helper with:
    each function call is resolved in the world the call before it left,
    and gives the output that goes into its result; an exception that
    [except Exception] does not catch ends the resolution. *)

(** One call resolved in the world [w]. *)
Definition call_outcome (json_loads : string -> pyobj + string)
    (tool_mapping : gmap string (tool World)) (nm payload : string)
    (w : World) : (string + pyexc) * World :=
  match tool_mapping !! nm with
  | None => (inl (no_tool_registered nm), w)
  | Some t =>
      match json_loads payload with
      | inr msg => (inl (error_executing nm (JSONDecodeError msg)), w)
      | inl v =>
          match t v w with
          | (inl s, w') => (inl s, w')
          | (inr e, w') =>
              if is_Exception e then (inl (error_executing nm e), w')
              else (inr e, w')
          end
      end
  end.

Fixpoint one_at_a_time (json_loads : string -> pyobj + string)
    (tool_mapping : gmap string (tool World))
    (calls : list output_item) (w : World)
  : (list conversation_item + pyexc) * World :=
  match calls with
  | [] => (inl [], w)
  | rx :: calls' =>
      match call_outcome json_loads tool_mapping (name rx) (arguments rx) w with
      | (inl output, w') =>
          match one_at_a_time json_loads tool_mapping calls' w' with
          | (inl results, w'') =>
              (inl (function_call_output (call_id rx) output :: results), w'')
          | (inr e, w'') => (inr e, w'')
          end
      | (inr e, w') => (inr e, w')
      end
  end.

End Contracts.

(** ** Data of the examples *)

Definition dq : string := String (ascii_of_nat 34) "".

(** The payload [{"city":"London"}] of the notebook's recorded tool call. *)
Definition london_arguments : string :=
  "{" +:+ dq +:+ "city" +:+ dq +:+ ":" +:+ dq +:+ "London" +:+ dq +:+ "}".

(** The same payload with a key the tool does not take, [{"town":"London"}]. *)
Definition town_arguments : string :=
  "{" +:+ dq +:+ "town" +:+ dq +:+ ":" +:+ dq +:+ "London" +:+ dq +:+ "}".

(** [json.loads] on the payloads the examples use: the two payloads above
    parse to dictionaries, and a payload that does not start a JSON value
    (such as the bare word [London]) is rejected at its first character. *)
Definition example_json_loads (s : string) : pyobj + string :=
  if String.eqb s london_arguments then
    inl (PyDict "{'city': 'London'}" [("city", PyStr "London")])
  else if String.eqb s town_arguments then
    inl (PyDict "{'town': 'London'}" [("town", PyStr "London")])
  else inr "Expecting value: line 1 column 1 (char 0)".

Definition london_call : output_item :=
  ResponseFunctionToolCall london_arguments "call_VcyIJQnP7HW2gge7Nh8HmPNG"
    "get_city_uuid" "fc_680bcde7cda48191ada496d462ca7c5407423969e3977116".

Definition london_response : Response :=
  Response.Build "resp_1"
    [ResponseReasoningItem "rs_680bcde645a08191bbb8b42ba4613aef07423969e3977116" [];
     london_call]
    198.

Definition done_response : Response :=
  Response.Build "resp_2"
    [ResponseOutputMessage "msg_1" [ResponseOutputText "done"]] 40.

(** The request that follows the London response in the manual loop. *)
Definition london_follow_up : request :=
  Request
    (InputItems
       [to_dict (ResponseReasoningItem
                   "rs_680bcde645a08191bbb8b42ba4613aef07423969e3977116" []);
        to_dict london_call;
        function_call_output "call_VcyIJQnP7HW2gge7Nh8HmPNG"
          "London ID: ce863d03-9c01-4de2-9af8-96b123852aec"])
    None.

(** A response that has reasoning only. *)
Definition reasoning_only_response : Response :=
  Response.Build "resp_3" [ResponseReasoningItem "rs_1" ["Thinking"]] 25.

(** Calls of a tool that is not registered, with a key the tool does not
    take, and with a payload that is not JSON. *)
Definition unknown_call : output_item :=
  ResponseFunctionToolCall london_arguments "call_2" "unknown_tool" "fc_2".
Definition town_call : output_item :=
  ResponseFunctionToolCall town_arguments "call_3" "get_city_uuid" "fc_3".
Definition malformed_call : output_item :=
  ResponseFunctionToolCall "London" "call_4" "get_city_uuid" "fc_4".

Definition mixed_response : Response :=
  Response.Build "resp_4" [london_call; unknown_call; town_call; malformed_call] 60.

(** A response that has a function call and a message at once, and one
    that calls the registered tool twice. *)
Definition partial_response : Response :=
  Response.Build "resp_7"
    [london_call;
     ResponseOutputMessage "msg_2" [ResponseOutputText "partial answer"]]
    30.

Definition london_call_again : output_item :=
  ResponseFunctionToolCall london_arguments "call_5" "get_city_uuid" "fc_5".

Definition two_call_response : Response :=
  Response.Build "resp_8" [london_call; london_call_again] 20.

(** A tool that ends in [sys.exit(2)], as a command-line entry point does
    on bad arguments, and a tool that always gives the same identifier. *)
Definition exiting_tool : tool Uuid.entropy :=
  fun _ w => (inr (SystemExit "2"), w).
Definition exiting_tool_mapping : gmap string (tool Uuid.entropy) :=
  {[ "get_city_uuid" := exiting_tool ]}.

Definition fixed_id_tool : tool Uuid.entropy :=
  fun arguments w => (inl (py_str arguments +:+ " ID: 0"), w).
Definition fixed_id_tool_mapping : gmap string (tool Uuid.entropy) :=
  {[ "get_city_uuid" := fixed_id_tool ]}.

(** An entropy source whose reads differ from one another. *)
Definition counting_entropy : Uuid.entropy :=
  Uuid.Entropy (fun n => N.of_nat n * 0x0123456789abcdef0123456789abcdef + 0xce863d039c01ade29af896b123852aec)%N 0.

Definition fresh_notebook : notebook Uuid.entropy :=
  Notebook counting_entropy [] [] [] 0.

(** ** The first cells: reading a reasoning summary *)

Definition StopIteration : pyexc := PyExc "StopIteration" true "".
Definition IndexError (msg : string) : pyexc := PyExc "IndexError" true msg.

(** [rx.summary] *)
Definition summary (rx : output_item) : list string :=
  match rx with
  | ResponseReasoningItem _ summary => summary
  | _ => []
  end.

(** [print(next(rx for rx in response.output
                if rx.type == 'reasoning').summary[0].text)] *)
Definition print_first_reasoning_summary {World : Type} (response : Response)
  : Py World unit :=
  match List.find (has_type "reasoning") (Response.output response) with
  | None => raise StopIteration
  | Some rx =>
      match summary rx with
      | [] => raise (IndexError "list index out of range")
      | text :: _ => print (line text)
      end
  end.

(** ** Vocabulary of the further properties *)

(** The contents of the user messages of a log, in order. *)
Definition user_messages_of (log : list conversation_item) : list string :=
  flat_map (fun item =>
              match item with
              | user_message content => [content]
              | _ => []
              end) log.


(** The computation ends with an exception. *)
Definition raises {A} (r : completion A) : bool :=
  match r with Raises _ => true | _ => false end.

(** The log [r2] carries starts with the log [r1] carries. *)
Definition resends (r1 r2 : request) : Prop :=
  exists log1 log2,
    input r1 = InputItems log1
    /\ input r2 = InputItems log2
    /\ log1 `prefix_of` log2.

(** [rq] carries a log between [lo] and [hi]. *)
Definition carries_between (lo hi : list conversation_item) (rq : request)
  : Prop :=
  exists log,
    input rq = InputItems log /\ lo `prefix_of` log /\ log `prefix_of` hi.

(** * Facts *)

Section Facts.

Context {World : Type}.
Variable json_loads : string -> pyobj + string.
Implicit Types (tm : gmap string (tool World)) (nb : notebook World).
Implicit Types (rx : output_item) (response : Response).

Local Open Scope py_scope.

Lemma same_globals_refl nb : same_globals nb nb.
Proof. by repeat split. Qed.

Lemma same_globals_trans nb1 nb2 nb3 :
  same_globals nb1 nb2 -> same_globals nb2 nb3 -> same_globals nb1 nb3.
Proof.
  intros (? & ? & ?) (? & ? & ?). repeat split; congruence.
Qed.

Lemma has_type_function_call rx :
  has_type "function_call" rx = true
  <-> exists arguments call_id name id,
        rx = ResponseFunctionToolCall arguments call_id name id.
Proof.
  split.
  - destruct rx; try discriminate. eauto.
  - intros (? & ? & ? & ? & ->). reflexivity.
Qed.

(** What [tool_output_for] can do: it returns, or lets through an
    exception of a registered tool that [except Exception] does not
    catch. *)
Lemma tool_output_for_cases tm name arguments nb :
  exists r nb',
    tool_output_for json_loads tm name arguments nb = (r, nb')
    /\ same_globals nb nb'
    /\ (exists extra, stdout nb' = stdout nb ++ extra)
    /\ match r with
       | Returns output => describes json_loads tm name arguments output
       | Raises e => is_Exception e = false /\ raised_by_registered_tool tm e
       | Awaiting => False
       end.
Proof.
  unfold tool_output_for, describes.
  destruct (tm !! name) as [t|] eqn:Htm.
  - unfold try_except_Exception, bind, loads, print, call, ret, raise.
    destruct (json_loads arguments) as [v|msg]; simpl.
    + destruct (t v (world nb)) as [[s|e] w] eqn:Ht; simpl.
      * eexists _, _. split; [reflexivity|].
        repeat split; simpl; eauto.
        exists (world nb). by rewrite Ht.
      * destruct (is_Exception e) eqn:He; simpl.
        -- eexists _, _. split; [reflexivity|].
           repeat split; simpl; eauto.
           ++ rewrite <- app_assoc. eauto.
           ++ exists (world nb). by rewrite Ht.
        -- eexists _, _. split; [reflexivity|].
           repeat split; simpl; eauto.
           exists name, t, v, (world nb). rewrite Ht. auto.
    + eexists _, _. split; [reflexivity|]. repeat split; simpl; eauto.
  - unfold bind, print, ret; simpl.
    eexists _, _. split; [reflexivity|]. repeat split; simpl; eauto.
Qed.

Lemma resolves_answers tm rx o : resolves json_loads tm rx o -> answers rx o.
Proof. intros (output & -> & _). by exists output. Qed.

Lemma for_loop_app {A B} (l1 l2 : list A) (body : A -> B -> Py World B)
    (acc : B) nb :
  for_loop (l1 ++ l2) body acc nb
  = (acc' <- for_loop l1 body acc ;; for_loop l2 body acc') nb.
Proof.
  revert acc nb. induction l1 as [|x l1 IH]; intros acc nb; simpl.
  - reflexivity.
  - unfold bind in *. destruct (body x acc nb) as [[acc'| |] nb1]; auto.
Qed.

(** One pass of the loop body: a function call adds one result with its
    [call_id]; any other item adds nothing. *)
Lemma resolve_item_cases tm rx acc nb :
  exists r nb',
    resolve_item json_loads tm rx acc nb = (r, nb')
    /\ same_globals nb nb'
    /\ (exists extra, stdout nb' = stdout nb ++ extra)
    /\ match r with
       | Returns acc' =>
           if has_type "function_call" rx
           then exists o, resolves json_loads tm rx o /\ acc' = acc ++ [o]
           else acc' = acc
       | Raises e => is_Exception e = false /\ raised_by_registered_tool tm e
       | Awaiting => False
       end.
Proof.
  destruct rx as [id summary|arguments cid nm id|id content|id|id|id cid];
    simpl;
    try (eexists _, _; split; [reflexivity|];
         repeat split; simpl; eauto using app_nil_r; fail).
  destruct (tool_output_for_cases tm nm arguments nb)
    as (r & nb' & Hrun & Hsame & Hout & Hr).
  unfold bind. rewrite Hrun.
  destruct r as [s|e|]; [|eauto 10|contradiction].
  eexists _, _. split; [reflexivity|].
  repeat split; try apply Hsame; auto.
  exists (function_call_output cid s). split; [|reflexivity].
  exists s. split; [reflexivity | exact Hr].
Qed.

Lemma resolve_items_cases tm (l : list output_item) :
  forall acc nb,
  exists r nb',
    for_loop l (resolve_item json_loads tm) acc nb = (r, nb')
    /\ same_globals nb nb'
    /\ (exists extra, stdout nb' = stdout nb ++ extra)
    /\ match r with
       | Returns acc' =>
           exists news,
             acc' = acc ++ news
             /\ Forall2 (resolves json_loads tm)
                        (List.filter (has_type "function_call") l) news
       | Raises e => is_Exception e = false /\ raised_by_registered_tool tm e
       | Awaiting => False
       end.
Proof.
  induction l as [|rx l IH]; intros acc nb; simpl.
  - eexists _, _. split; [reflexivity|].
    split; [apply same_globals_refl|].
    split; [exists []; by rewrite app_nil_r|].
    exists []. split; [by rewrite app_nil_r | constructor].
  - destruct (resolve_item_cases tm rx acc nb)
      as (r & nb1 & Hrun & Hsame & [extra Hout] & Hr).
    unfold bind. rewrite Hrun.
    destruct r as [acc1|e|]; [|eauto 10|contradiction].
    destruct (IH acc1 nb1) as (r2 & nb2 & Hrun2 & Hsame2 & [extra2 Hout2] & Hr2).
    rewrite Hrun2. eexists _, _. split; [reflexivity|].
    split; [eapply same_globals_trans; eauto|].
    split; [exists (extra ++ extra2); rewrite Hout2, Hout, app_assoc; auto|].
    destruct r2 as [acc2|e|]; auto.
    destruct Hr2 as (news & -> & Hall).
    destruct (has_type "function_call" rx).
    + destruct Hr as (o & Ho & ->).
      exists (o :: news). split; [by rewrite <- app_assoc | by constructor].
    + subst acc1. eauto.
Qed.

(** The results of [invoke_functions_from_response], in every case. *)
Lemma invoke_cases tm response nb :
  exists r nb',
    invoke_functions_from_response json_loads response tm nb = (r, nb')
    /\ same_globals nb nb'
    /\ (exists extra, stdout nb' = stdout nb ++ extra)
    /\ match r with
       | Returns function_outputs =>
           Forall2 (resolves json_loads tm)
                   (function_calls_of response) function_outputs
       | Raises e => is_Exception e = false /\ raised_by_registered_tool tm e
       | Awaiting => False
       end.
Proof.
  unfold invoke_functions_from_response.
  destruct (resolve_items_cases tm (Response.output response) [] nb)
    as (r & nb' & Hrun & Hsame & Hout & Hr).
  exists r, nb'. repeat split; try apply Hsame; auto.
  destruct r; auto. destruct Hr as (news & -> & Hall). exact Hall.
Qed.

(** Where every registered tool raises only [Exception]s, it returns. *)
Lemma invoke_returns tm response nb :
  registry_raises_only_Exception tm ->
  exists function_outputs nb',
    invoke_functions_from_response json_loads response tm nb
    = (Returns function_outputs, nb')
    /\ Forall2 (resolves json_loads tm)
               (function_calls_of response) function_outputs.
Proof.
  intros Hcontract.
  destruct (invoke_cases tm response nb) as (r & nb' & Hrun & _ & _ & Hr).
  destruct r as [outs|e|]; [eauto| |contradiction].
  destruct Hr as (He & nm & t & v & w & Htm & Ht).
  destruct (t v w) as [r' w'] eqn:Hcall. simpl in Ht. subst r'.
  rewrite (Hcontract nm t Htm v w e w' Hcall) in He. discriminate.
Qed.

(** ** One pass of the response loop *)

Lemma response_cycle_unfold tm response nb :
  response_cycle json_loads tm response nb
  = if (length (function_calls_of response) =? 0)%nat
    then (Returns true, after_messages response (after_reasoning response nb))
    else
      match invoke_functions_from_response json_loads response tm
              (after_reasoning response nb) with
      | (Returns function_outputs, nb') =>
          (Returns false,
           after_messages response
             (with_items
                (interleave (map to_dict (function_calls_of response))
                            function_outputs) nb'))
      | (Raises e, nb') => (Raises e, nb')
      | (Awaiting, nb') => (Awaiting, nb')
      end.
Proof.
  unfold response_cycle, after_messages, after_reasoning, with_items,
    reasoning_prints, message_prints, function_calls_of, reasoning_of,
    messages_of.
  destruct nb as [w out rq conv total]; simpl.
  destruct (List.filter (has_type "reasoning") (Response.output response))
    as [|r0 rs] eqn:Hr;
  destruct (List.filter (has_type "function_call") (Response.output response))
    as [|c0 cs] eqn:Hc;
  destruct (List.filter (has_type "message") (Response.output response))
    as [|m0 ms] eqn:Hm;
  cbn [map length Nat.ltb Nat.leb Nat.eqb when];
  unfold bind, add_tokens, print, extend, ret;
  cbn -[invoke_functions_from_response String.concat interleave];
  rewrite ?app_nil_r, <- ?app_assoc; try reflexivity.
  all: destruct (invoke_functions_from_response _ _ _ _) as [[outs|e|] nb'];
    cbn -[String.concat interleave]; rewrite ?app_nil_r, <- ?app_assoc;
    reflexivity.
Qed.

Lemma interleave_pairs (calls : list output_item) news :
  Forall2 answers calls news ->
  exists outputs,
    length outputs = length calls
    /\ interleave (map to_dict calls) news = pairs calls outputs.
Proof.
  induction 1 as [|rx o calls news [output ->] _ (outputs & Hlen & IH)].
  - by exists [].
  - exists (output :: outputs). split; simpl; [by rewrite Hlen|].
    unfold interleave in *. simpl. by rewrite IH.
Qed.

Lemma filter_has_type t (l : list output_item) :
  Forall (fun rx => has_type t rx = true) (List.filter (has_type t) l).
Proof.
  apply Forall_forall. intros rx Hin.
  apply list_elem_of_In, filter_In in Hin. tauto.
Qed.

(** Every outcome of one pass of the response loop. *)
Lemma response_cycle_cases tm response nb :
  exists r nb',
    response_cycle json_loads tm response nb = (r, nb')
    /\ requests nb' = requests nb
    /\ total_tokens_used nb'
       = total_tokens_used nb + Response.total_tokens response
    /\ (exists extra, stdout nb' = stdout nb ++ extra)
    /\ match r with
       | Returns done =>
           done = (length (function_calls_of response) =? 0)%nat
           /\ exists outputs,
               length outputs = length (function_calls_of response)
               /\ conversation nb'
                  = conversation nb
                      ++ map to_dict (reasoning_of response)
                      ++ pairs (function_calls_of response) outputs
                      ++ map to_dict (messages_of response)
       | Raises e =>
           is_Exception e = false
           /\ raised_by_registered_tool tm e
           /\ conversation nb'
              = conversation nb ++ map to_dict (reasoning_of response)
       | Awaiting => False
       end.
Proof.
  rewrite response_cycle_unfold.
  destruct (length (function_calls_of response) =? 0)%nat eqn:Hcalls.
  - eexists _, _. split; [reflexivity|]. simpl.
    repeat split; eauto.
    + rewrite <- app_assoc. eauto.
    + exists []. apply Nat.eqb_eq in Hcalls.
      destruct (function_calls_of response); [|discriminate].
      split; [reflexivity|]. simpl. by rewrite <- app_assoc.
  - destruct (invoke_cases tm response (after_reasoning response nb))
      as (r & nb1 & Hrun & (Hrq & Hconv & Htot) & [extra Hout] & Hr).
    rewrite Hrun. destruct r as [outs|e|]; [| |contradiction].
    + eexists _, _. split; [reflexivity|]. simpl.
      rewrite Hrq, Hconv, Htot, Hout. simpl.
      repeat split; eauto.
      * rewrite <- !app_assoc. eauto.
      * destruct (interleave_pairs (function_calls_of response) outs)
          as (outputs & Hlen & Hpairs).
        { eapply Forall2_impl; [exact Hr|]. apply resolves_answers. }
        exists outputs. split; [exact Hlen|].
        rewrite Hpairs. by rewrite <- !app_assoc.
    + eexists _, _. split; [reflexivity|].
      rewrite Hrq, Hconv, Htot, Hout. simpl.
      destruct Hr as [He Hby]. repeat split; eauto.
      rewrite <- app_assoc. eauto.
Qed.

(** ** Logs in which every call is answered *)

Lemma answered_app_bounded (b : list conversation_item) (n : nat) :
  forall a, (length a <= n)%nat ->
    answered a = true -> answered (a ++ b) = answered b.
Proof.
  induction n as [|n IH]; intros a Hlen Ha.
  - destruct a; [reflexivity | simpl in Hlen; lia].
  - destruct a as [|x a]; [reflexivity|].
    simpl in Hlen.
    destruct x as [content|rx|c out]; [| |discriminate].
    + simpl in *. apply IH; [lia | exact Ha].
    + destruct rx; try (simpl in *; apply IH; [lia | exact Ha]).
      simpl in Ha. destruct a as [|y a]; [discriminate|].
      destruct y as [| |c' out]; try discriminate.
      apply andb_prop in Ha as [Heq Ha].
      simpl. rewrite Heq. simpl. apply IH; [simpl in Hlen; lia | exact Ha].
Qed.

Lemma answered_app (a b : list conversation_item) :
  answered a = true -> answered (a ++ b) = answered b.
Proof. apply (answered_app_bounded b (length a)). lia. Qed.

Lemma answered_no_calls (l : list output_item) :
  Forall (fun rx => has_type "function_call" rx = false) l ->
  answered (map to_dict l) = true.
Proof.
  induction 1 as [|rx l Hrx _ IH]; [reflexivity|].
  destruct rx; try discriminate; exact IH.
Qed.

Lemma answered_pairs (calls : list output_item) :
  Forall (fun rx => has_type "function_call" rx = true) calls ->
  forall outputs, answered (pairs calls outputs) = true.
Proof.
  induction 1 as [|rx calls Hrx _ IH]; intros outputs; [reflexivity|].
  destruct outputs as [|o outputs]; [reflexivity|].
  destruct rx; try discriminate. simpl.
  rewrite String.eqb_refl. apply IH.
Qed.

Lemma answered_filter_other t (l : list output_item) :
  t <> "function_call" ->
  answered (map to_dict (List.filter (has_type t) l)) = true.
Proof.
  intros Hne. apply answered_no_calls.
  eapply Forall_impl; [apply filter_has_type|].
  intros rx Hrx. unfold has_type in *.
  apply String.eqb_eq in Hrx. apply String.eqb_neq. congruence.
Qed.

(** ** The response loop *)

Lemma response_loop_nil tm nb :
  response_loop json_loads tm [] nb = (Awaiting, sent nb).
Proof. reflexivity. Qed.

Lemma response_loop_cons tm response script nb :
  response_loop json_loads tm (response :: script) nb
  = match response_cycle json_loads tm response (sent nb) with
    | (Returns true, nb') => (Returns script, nb')
    | (Returns false, nb') => response_loop json_loads tm script nb'
    | (Raises e, nb') => (Raises e, nb')
    | (Awaiting, nb') => (Awaiting, nb')
    end.
Proof.
  simpl. unfold bind, get_conversation, send. simpl.
  fold (sent nb).
  destruct (response_cycle json_loads tm response (sent nb))
    as [[[|]|e|] nb']; reflexivity.
Qed.

(** The loop only appends to the conversation. *)
Lemma response_loop_extends tm script :
  forall nb, exists appended,
    conversation (snd (response_loop json_loads tm script nb))
    = conversation nb ++ appended.
Proof.
  induction script as [|response script IH]; intros nb.
  - exists []. rewrite response_loop_nil. simpl. by rewrite app_nil_r.
  - rewrite response_loop_cons.
    destruct (response_cycle_cases tm response (sent nb))
      as (r & nb1 & Hrun & _ & _ & _ & Hr).
    rewrite Hrun.
    assert (exists appended, conversation nb1 = conversation nb ++ appended)
      as [app1 Happ1].
    { destruct r as [done|e|]; [| |contradiction].
      - destruct Hr as (_ & outputs & _ & ->). simpl. eauto.
      - destruct Hr as (_ & _ & ->). simpl. eauto. }
    destruct r as [[|]|e|]; simpl; eauto.
    destruct (IH nb1) as [app2 Happ2]. rewrite Happ2, Happ1.
    exists (app1 ++ app2). by rewrite app_assoc.
Qed.


Lemma answered_counts_bounded (c : string) (n : nat) :
  forall log, (length log <= n)%nat ->
    answered log = true -> count_calls c log = count_outputs c log.
Proof.
  unfold count_calls, count_outputs.
  induction n as [|n IH]; intros log Hlen Hlog.
  - destruct log; [reflexivity | simpl in Hlen; lia].
  - destruct log as [|x log]; [reflexivity|].
    simpl in Hlen.
    destruct x as [content|rx|c' out]; [| |discriminate].
    + simpl in *. apply IH; [lia | exact Hlog].
    + destruct rx; try (simpl in *; apply IH; [lia | exact Hlog]).
      simpl in Hlog. destruct log as [|y log]; [discriminate|].
      destruct y as [| |c' out]; try discriminate.
      apply andb_prop in Hlog as [Heq Hlog].
      apply String.eqb_eq in Heq. subst c'.
      simpl in Hlen. simpl.
      match goal with
      | |- context [String.eqb ?x c] => destruct (String.eqb x c)
      end; simpl; rewrite IH by (lia || exact Hlog); reflexivity.
Qed.

Lemma answered_counts (c : string) (log : list conversation_item) :
  answered log = true -> count_calls c log = count_outputs c log.
Proof. apply (answered_counts_bounded c (length log)). lia. Qed.

(** The loop starts by sending the conversation as it stands. *)
Lemma response_loop_requests tm script :
  forall nb, exists later,
    requests (snd (response_loop json_loads tm script nb))
    = requests nb ++ Request (InputItems (conversation nb)) None :: later.
Proof.
  induction script as [|response script IH]; intros nb.
  - rewrite response_loop_nil. by exists [].
  - rewrite response_loop_cons.
    destruct (response_cycle_cases tm response (sent nb))
      as (r & nb1 & Hrun & Hrq & _ & _ & Hr).
    rewrite Hrun.
    destruct r as [[|]|e|]; simpl; try (exists []; exact Hrq).
    destruct (IH nb1) as [later Hlater]. rewrite Hlater, Hrq. simpl.
    rewrite <- app_assoc. simpl. eauto.
Qed.

(** ** The turns of the conversation *)

Lemma user_turns_cons tm message user_messages script nb :
  user_turns json_loads tm (message :: user_messages) script nb
  = match response_loop json_loads tm script (begun message nb) with
    | (Returns script', nb') => user_turns json_loads tm user_messages script' nb'
    | (Raises e, nb') => (Raises e, nb')
    | (Awaiting, nb') => (Awaiting, nb')
    end.
Proof.
  simpl. unfold bind, print, extend. simpl. fold (begun message nb).
  destruct (response_loop json_loads tm script (begun message nb))
    as [[script'|e|] nb']; reflexivity.
Qed.


Lemma print_total_cases total nb :
  print_total total nb = (Returns tt, with_stdout [total_line total] nb)
  \/ exists e, print_total total nb = (Raises e, nb).
Proof.
  unfold print_total.
  destruct (int_str_limit <=? Z.abs total); [right; eexists; reflexivity|].
  destruct (float_division_bound <=? Z.abs total);
    [right; eexists; reflexivity|].
  left. reflexivity.
Qed.

Lemma manual_orchestration_unfold tm user_messages script nb :
  manual_orchestration json_loads tm user_messages script nb
  = match user_turns json_loads tm user_messages script
            (Notebook (world nb) (stdout nb) (requests nb) [] 0) with
    | (Returns _, nb1) => print_total (total_tokens_used nb1) nb1
    | (Raises e, nb1) => (Raises e, nb1)
    | (Awaiting, nb1) => (Awaiting, nb1)
    end.
Proof.
  unfold manual_orchestration, bind, initialise, get_total_tokens_used.
  destruct (user_turns json_loads tm user_messages script _)
    as [[script'|e|] nb1]; reflexivity.
Qed.

(** The final print changes nothing but the standard output. *)
Lemma manual_orchestration_globals tm user_messages script nb :
  same_globals
    (snd (user_turns json_loads tm user_messages script
            (Notebook (world nb) (stdout nb) (requests nb) [] 0)))
    (snd (manual_orchestration json_loads tm user_messages script nb)).
Proof.
  rewrite manual_orchestration_unfold.
  destruct (user_turns json_loads tm user_messages script _)
    as [[script'|e|] nb1]; try apply same_globals_refl.
  destruct (print_total_cases (total_tokens_used nb1) nb1) as [->|[e ->]];
    by repeat split.
Qed.

Lemma manual_orchestration_requests tm user_messages script nb :
  requests (snd (manual_orchestration json_loads tm user_messages script nb))
  = requests
      (snd (user_turns json_loads tm user_messages script
              (Notebook (world nb) (stdout nb) (requests nb) [] 0))).
Proof. apply manual_orchestration_globals. Qed.





Lemma contract_excludes tm e :
  registry_raises_only_Exception tm ->
  raised_by_registered_tool tm e -> is_Exception e = true.
Proof.
  intros Hcontract (nm & t & v & w & Htm & Ht).
  destruct (t v w) as [r w'] eqn:Hcall. simpl in Ht. subst r.
  exact (Hcontract nm t Htm v w e w' Hcall).
Qed.

Lemma mentions_no_tool_registered nm :
  mentions "no tool registered" (no_tool_registered nm) = true.
Proof. vm_compute. reflexivity. Qed.

Lemma Forall2_In_l {A B} (R : A -> B -> Prop) (l : list A) (k : list B) x :
  Forall2 R l k -> In x l -> exists y, In y k /\ R x y.
Proof.
  induction 1 as [|a b l k Hab _ IH]; intros Hin; [contradiction|].
  destruct Hin as [->|Hin].
  - exists b. split; [by left | exact Hab].
  - destruct (IH Hin) as (y & Hy & HR). exists y. split; [by right | exact HR].
Qed.

(** ** Responses without function calls *)

Lemma resolve_items_no_calls tm (l : list output_item) :
  List.filter (has_type "function_call") l = [] ->
  forall acc nb,
    for_loop l (resolve_item json_loads tm) acc nb
    = (Returns acc, with_stdout (reasoning_steps l) nb).
Proof.
  unfold with_stdout.
  induction l as [|rx l IH]; intros Hnone acc nb.
  - simpl. rewrite app_nil_r. by destruct nb.
  - destruct rx; try discriminate; simpl in Hnone;
      cbn [for_loop resolve_item]; unfold bind, print, ret;
      rewrite (IH Hnone); simpl; rewrite <- ?app_assoc; reflexivity.
Qed.

Lemma invoke_no_calls tm response nb :
  function_calls_of response = [] ->
  invoke_functions_from_response json_loads response tm nb
  = (Returns [], with_stdout (reasoning_steps (Response.output response)) nb).
Proof. intros Hnone. by apply resolve_items_no_calls. Qed.

Lemma response_loop_no_calls tm response script nb :
  function_calls_of response = [] ->
  response_loop json_loads tm (response :: script) nb
  = (Returns script, after_messages response (after_reasoning response (sent nb))).
Proof.
  intros Hnone. rewrite response_loop_cons, response_cycle_unfold, Hnone.
  reflexivity.
Qed.

Lemma concat_empty (l : list string) :
  Forall (fun s => s = "") l -> String.concat "" l = "".
Proof.
  induction 1 as [|s l -> _ IH]; [reflexivity|].
  simpl. destruct l; [reflexivity|]. exact IH.
Qed.

Lemma output_text_no_messages response :
  messages_of response = [] -> output_text response = "".
Proof.
  unfold messages_of, output_text. intros Hnone.
  apply concat_empty, Forall_map, Forall_forall. intros rx Hin.
  destruct rx; try reflexivity.
  assert (In (ResponseOutputMessage id content)
             (List.filter (has_type "message") (Response.output response)))
    as Hin'.
  { apply filter_In. split; [by apply list_elem_of_In | reflexivity]. }
  rewrite Hnone in Hin'. contradiction.
Qed.

(** ** Tools that do not depend on the world *)

Lemma tool_output_for_independent tm nm payload nb1 nb2 :
  registry_world_independent tm ->
  fst (tool_output_for json_loads tm nm payload nb1)
  = fst (tool_output_for json_loads tm nm payload nb2).
Proof.
  intros Hind. unfold tool_output_for.
  destruct (tm !! nm) as [t|] eqn:Htm; [|reflexivity].
  unfold try_except_Exception, bind, loads, print, call, ret, raise.
  destruct (json_loads payload) as [v|msg]; [|reflexivity]. simpl.
  pose proof (Hind nm t Htm v (world nb1) (world nb2)) as Hsame.
  destruct (t v (world nb1)) as [r1 w1], (t v (world nb2)) as [r2 w2].
  simpl in Hsame. subst r2.
  destruct r1 as [s|e]; [reflexivity|]. simpl.
  destruct (is_Exception e); reflexivity.
Qed.

Lemma resolve_items_independent tm (l : list output_item) :
  registry_world_independent tm ->
  forall acc nb1 nb2,
    fst (for_loop l (resolve_item json_loads tm) acc nb1)
    = fst (for_loop l (resolve_item json_loads tm) acc nb2).
Proof.
  intros Hind. induction l as [|rx l IH]; intros acc nb1 nb2; [reflexivity|].
  cbn [for_loop]. unfold bind.
  assert (fst (resolve_item json_loads tm rx acc nb1)
          = fst (resolve_item json_loads tm rx acc nb2)) as Hitem.
  { destruct rx as [|payload cid nm id| | | |]; try reflexivity.
    cbn [resolve_item]. unfold bind.
    pose proof (tool_output_for_independent tm nm payload nb1 nb2 Hind)
      as Hout.
    destruct (tool_output_for json_loads tm nm payload nb1) as [r1 n1],
             (tool_output_for json_loads tm nm payload nb2) as [r2 n2].
    simpl in Hout. subst r2. destruct r1; reflexivity. }
  destruct (resolve_item json_loads tm rx acc nb1) as [r1 n1],
           (resolve_item json_loads tm rx acc nb2) as [r2 n2].
  simpl in Hitem. subst r2. destruct r1 as [acc'| |]; try reflexivity.
  apply IH.
Qed.

(** ** Token usage *)

Lemma sum_tokens_app (a b : list Response) :
  sum_tokens (a ++ b) = sum_tokens a + sum_tokens b.
Proof. unfold sum_tokens. induction a; simpl; lia. Qed.

Lemma sum_tokens_nonneg (l : list Response) :
  Forall (fun response => 0 <= Response.total_tokens response) l ->
  0 <= sum_tokens l.
Proof. unfold sum_tokens. induction 1; simpl; lia. Qed.

(** The loop counts the tokens of every response it receives, once;
    it sends one request for each, and one more when it is left waiting. *)
Lemma response_loop_tokens tm script :
  forall nb, exists r nb' received rest,
    response_loop json_loads tm script nb = (r, nb')
    /\ script = received ++ rest
    /\ total_tokens_used nb' = total_tokens_used nb + sum_tokens received
    /\ length (requests nb')
       = (length (requests nb) + length received + pending r)%nat
    /\ match r with Returns script' => script' = rest | _ => True end.
Proof.
  induction script as [|response script IH]; intros nb.
  - rewrite response_loop_nil. exists Awaiting, (sent nb), [], [].
    split; [reflexivity|]. simpl. rewrite length_app. simpl.
    repeat split; lia.
  - rewrite response_loop_cons.
    destruct (response_cycle_cases tm response (sent nb))
      as (r & nb1 & Hrun & Hrq & Htot & _ & Hr).
    rewrite Hrun. simpl in Htot.
    assert (length (requests nb1) = length (requests nb) + 1)%nat as Hlen.
    { rewrite Hrq. simpl. rewrite length_app. reflexivity. }
    destruct r as [[|]|e|]; [| | |contradiction].
    + exists (Returns script), nb1, [response], script.
      split; [reflexivity|]. simpl. repeat split; lia.
    + destruct (IH nb1) as (r2 & nb2 & received & rest & Hrun2 & Hscript
                              & Htot2 & Hlen2 & Hr2).
      exists r2, nb2, (response :: received), rest.
      split; [exact Hrun2|]. subst script. simpl.
      change (foldr _ 0 received) with (sum_tokens received).
      repeat split; try lia. exact Hr2.
    + exists (Raises e), nb1, [response], script.
      split; [reflexivity|]. simpl. repeat split; lia.
Qed.

Lemma user_turns_tokens tm user_messages :
  forall script nb, exists r nb' received rest,
    user_turns json_loads tm user_messages script nb = (r, nb')
    /\ script = received ++ rest
    /\ total_tokens_used nb' = total_tokens_used nb + sum_tokens received
    /\ length (requests nb')
       = (length (requests nb) + length received + pending r)%nat
    /\ match r with Returns script' => script' = rest | _ => True end.
Proof.
  induction user_messages as [|message user_messages IH]; intros script nb.
  - exists (Returns script), nb, [], script. simpl.
    split; [reflexivity|]. repeat split; lia.
  - rewrite user_turns_cons.
    destruct (response_loop_tokens tm script (begun message nb))
      as (r & nb1 & received & rest & Hrun & Hscript & Htot & Hlen & Hr).
    rewrite Hrun. simpl in Htot, Hlen.
    destruct r as [script'|e|].
    + subst script'.
      destruct (IH rest nb1) as (r2 & nb2 & received2 & rest2 & Hrun2
                                   & Hrest & Htot2 & Hlen2 & Hr2).
      exists r2, nb2, (received ++ received2), rest2.
      split; [exact Hrun2|].
      rewrite sum_tokens_app, length_app, <- app_assoc, <- Hrest.
      simpl in Hlen. repeat split; try lia; auto.
    + exists (Raises e), nb1, received, rest.
      split; [reflexivity|]. simpl in *. repeat split; auto; lia.
    + exists Awaiting, nb1, received, rest.
      split; [reflexivity|]. simpl in *. repeat split; auto; lia.
Qed.

(** ** The single-call snippet *)

(** Unlike [invoke_functions_from_response], the snippet that precedes it
    raises [ValueError] at a function call whose tool is not registered. *)
Lemma extract_item_unregistered tm rx acc nb :
  has_type "function_call" rx = true ->
  tm !! name rx = None ->
  extract_item json_loads tm rx acc nb
  = (Raises (ValueError ("No tool found for function call: " +:+ name rx)), nb).
Proof.
  intros Htype Hnone.
  apply has_type_function_call in Htype as (args & cid & nm & id & ->).
  cbn [name] in Hnone. cbn [extract_item name]. unfold tool in *.
  by rewrite Hnone.
Qed.

(** ** The helper against resolution one call at a time *)

Lemma tool_output_for_outcome tm nm payload nb :
  exists nb',
    tool_output_for json_loads tm nm payload nb
    = (match fst (call_outcome json_loads tm nm payload (world nb)) with
       | inl output => Returns output
       | inr e => Raises e
       end, nb')
    /\ world nb' = snd (call_outcome json_loads tm nm payload (world nb)).
Proof.
  unfold tool_output_for, call_outcome, tool in *.
  destruct (tm !! nm) as [t|]; [|eexists; split; reflexivity].
  unfold try_except_Exception, bind, loads, print, call, ret, raise.
  destruct (json_loads payload) as [v|msg]; [|eexists; split; reflexivity].
  cbn [world].
  destruct (t v (world nb)) as [[s|e] w]; [eexists; split; reflexivity|].
  cbn [is_Exception].
  destruct (is_Exception e); eexists; split; reflexivity.
Qed.

Lemma resolve_items_one_at_a_time tm (l : list output_item) :
  forall acc nb,
  exists nb',
    for_loop l (resolve_item json_loads tm) acc nb
    = (match fst (one_at_a_time json_loads tm
                    (List.filter (has_type "function_call") l) (world nb)) with
       | inl results => Returns (acc ++ results)
       | inr e => Raises e
       end, nb')
    /\ world nb'
       = snd (one_at_a_time json_loads tm
                (List.filter (has_type "function_call") l) (world nb)).
Proof.
  induction l as [|rx l IH]; intros acc nb.
  - exists nb. simpl. by rewrite app_nil_r.
  - destruct rx as [id texts|payload cid nm id|id content|id|id|id cid];
      simpl (List.filter _ _); cbn [for_loop resolve_item];
      try (unfold bind, print, ret; cbv beta iota;
           match goal with
           | |- context [for_loop l _ acc ?n] => exact (IH acc n)
           end).
    unfold bind at 1 2.
    destruct (tool_output_for_outcome tm nm payload nb)
      as (nb1 & Hrun & Hworld).
    rewrite Hrun. cbn [one_at_a_time name arguments call_id].
    destruct (call_outcome json_loads tm nm payload (world nb))
      as [[output|e] w]; cbn [fst snd] in *.
    + unfold ret. destruct (IH (acc ++ [function_call_output cid output]) nb1)
        as (nb2 & Hrun2 & Hworld2).
      rewrite Hworld in Hrun2, Hworld2.
      exists nb2. rewrite Hrun2.
      destruct (one_at_a_time json_loads tm _ w) as [[results|e] w'];
        cbn [fst snd] in *; [|by split].
      split; [|exact Hworld2]. by rewrite <- app_assoc.
    + exists nb1. by split.
Qed.

(** With tools that raise only [Exception]s, one pass of the response
    loop returns, every call having got its result. *)
Lemma interleave_resolved tm (calls : list output_item) news :
  Forall2 (resolves json_loads tm) calls news ->
  exists outputs,
    Forall2 (fun rx output =>
               describes json_loads tm (name rx) (arguments rx) output)
            calls outputs
    /\ interleave (map to_dict calls) news = pairs calls outputs.
Proof.
  induction 1 as [|rx o calls news (output & -> & Hdesc) _ (outputs & Hall & IH)].
  - exists []. split; [constructor | reflexivity].
  - exists (output :: outputs). split; [by constructor|].
    unfold interleave in *. simpl. by rewrite IH.
Qed.

Lemma response_cycle_resolved tm response nb :
  registry_raises_only_Exception tm ->
  exists outputs tool_lines nb1,
    Forall2 (fun rx output =>
               describes json_loads tm (name rx) (arguments rx) output)
            (function_calls_of response) outputs
    /\ response_cycle json_loads tm response nb
       = (Returns (length (function_calls_of response) =? 0)%nat, nb1)
    /\ conversation nb1 = conversation nb ++ appended_for response outputs
    /\ requests nb1 = requests nb
    /\ stdout nb1
       = stdout nb ++ reasoning_prints response ++ tool_lines
           ++ message_prints response.
Proof.
  intros Hcontract. rewrite response_cycle_unfold.
  destruct (length (function_calls_of response) =? 0)%nat eqn:Hcalls.
  - apply Nat.eqb_eq in Hcalls. apply nil_length_inv in Hcalls.
    exists [], [], (after_messages response (after_reasoning response nb)).
    unfold appended_for. rewrite Hcalls. simpl.
    split; [constructor|]. split; [reflexivity|].
    rewrite <- !app_assoc. by repeat split.
  - destruct (invoke_cases tm response (after_reasoning response nb))
      as (r & nb1 & Hrun & (Hrq & Hconv & Htot) & [extra Hout] & Hr).
    rewrite Hrun. destruct r as [outs|e|]; [| |contradiction].
    + destruct (interleave_resolved tm (function_calls_of response) outs Hr)
        as (outputs & Hall & Hpairs).
      exists outputs, extra. eexists. split; [exact Hall|].
      split; [reflexivity|]. simpl.
      rewrite Hrq, Hconv, Hout, Hpairs. unfold appended_for. simpl.
      rewrite <- !app_assoc. by repeat split.
    + destruct Hr as [He Hby].
      rewrite (contract_excludes tm e Hcontract Hby) in He. discriminate.
Qed.

(** A pass that raises ends the response loop there. *)
Lemma response_loop_raised tm response script nb e nb1 :
  response_cycle json_loads tm response (sent nb) = (Raises e, nb1) ->
  is_Exception e = false
  /\ conversation nb1 = conversation nb ++ map to_dict (reasoning_of response)
  /\ response_loop json_loads tm (response :: script) nb = (Raises e, nb1)
  /\ requests nb1 = requests nb ++ [Request (InputItems (conversation nb)) None].
Proof.
  intros Hrun.
  destruct (response_cycle_cases tm response (sent nb))
    as (r & nb' & Hrun' & Hrq & _ & _ & Hr).
  rewrite Hrun in Hrun'. injection Hrun' as <- <-.
  destruct Hr as (He & _ & Hconv).
  rewrite response_loop_cons, Hrun. by repeat split.
Qed.

End Facts.

(** The registry of the notebook honours the contract: [get_city_uuid]
    raises nothing but [TypeError]. *)
Lemma notebook_tools_raise_only_Exception :
  registry_raises_only_Exception notebook_tool_mapping.
Proof.
  intros nm t Hnm. unfold notebook_tool_mapping in Hnm.
  apply lookup_singleton_Some in Hnm as [_ <-].
  intros args w e w' Hcall. unfold get_city_uuid_tool in Hcall.
  destruct args as [s|repr items|ty repr];
    try (injection Hcall as <- _; reflexivity).
  destruct (List.find _ items) as [[k v]|].
  - injection Hcall as <- _. reflexivity.
  - destruct items as [|[k city] items].
    + injection Hcall as <- _. reflexivity.
    + destruct (get_city_uuid (py_str city) w). discriminate.
Qed.

(** * The claims *)

Section Claims.

Context {World : Type}.
Variable json_loads : string -> pyobj + string.
Implicit Types (tm : gmap string (tool World)) (nb : notebook World).
Implicit Types (rx : output_item) (response : Response).


(** C4. Order of the appended items.  One pass of the response loop
    extends the conversation by all the reasoning items, then each function
    call followed by its result, in the order of the calls in the response,
    then all the message items; the outputs are as many as the calls, so
    [zip] drops nothing.  The pass returns whenever the registered tools
    raise only [Exception]s; when a tool raises past [except Exception],
    the pass ends with the reasoning items alone appended. *)
Theorem appended_items_are_ordered tm response nb :
  let '(r, nb') := response_cycle json_loads tm response nb in
  match r with
  | Returns _ =>
      exists outputs,
        length outputs = length (function_calls_of response)
        /\ conversation nb'
           = conversation nb
               ++ map to_dict (reasoning_of response)
               ++ pairs (function_calls_of response) outputs
               ++ map to_dict (messages_of response)
  | Raises e =>
      is_Exception e = false
      /\ conversation nb'
         = conversation nb ++ map to_dict (reasoning_of response)
  | Awaiting => False
  end
  /\ (registry_raises_only_Exception tm -> exists done, r = Returns done).
Proof.
  destruct (response_cycle_cases json_loads tm response nb)
    as (r & nb' & Hrun & _ & _ & _ & Hr).
  rewrite Hrun. destruct r as [done|e|]; [| |contradiction].
  - destruct Hr as (_ & outputs & Hlen & Hconv). split; eauto.
  - destruct Hr as (He & Hby & Hconv). split; [by split|].
    intros Hcontract. rewrite (contract_excludes tm e Hcontract Hby) in He.
    discriminate.
Qed.

(** C6. Append-only log.  One pass of the response loop, and the whole
    response loop of a turn, leave the conversation they started from as a
    prefix of the conversation they end with: every item keeps its
    position, new items come at the end.  This holds for every outcome,
    also when a tool's exception leaves the loop. *)
Theorem conversation_is_append_only tm response script nb :
  (exists appended,
      conversation (snd (response_cycle json_loads tm response nb))
      = conversation nb ++ appended)
  /\ (exists appended,
        conversation (snd (response_loop json_loads tm script nb))
        = conversation nb ++ appended)
  /\ (forall (i : nat) item,
        conversation nb !! i = Some item ->
        conversation (snd (response_cycle json_loads tm response nb)) !! i
        = Some item
        /\ conversation (snd (response_loop json_loads tm script nb)) !! i
           = Some item).
Proof.
  assert (exists appended,
             conversation (snd (response_cycle json_loads tm response nb))
             = conversation nb ++ appended) as Hcycle.
  { destruct (response_cycle_cases json_loads tm response nb)
      as (r & nb' & Hrun & _ & _ & _ & Hr).
    rewrite Hrun. simpl. destruct r as [done|e|]; [| |contradiction].
    - destruct Hr as (_ & outputs & _ & ->). eauto.
    - destruct Hr as (_ & _ & ->). eauto. }
  pose proof (response_loop_extends json_loads tm script nb) as Hloop.
  split; [exact Hcycle|]. split; [exact Hloop|].
  intros i item Hi.
  destruct Hcycle as [a1 ->], Hloop as [a2 ->].
  split; by apply lookup_app_l_Some.
Qed.

(** C2. Unregistered tool.  A function call whose name is not in the
    registry is answered, in any state, by a [function_call_output] with
    its [call_id] whose output is
    [ERROR - No tool registered for function call: <name>], and the loop
    goes on with the items that follow; that text contains the marker
    [no tool registered] (letter case apart).  For a response that
    contains such a call, [invoke_functions_from_response] returns outputs
    that include this result; the only way it can raise instead is an
    exception of a registered tool that [except Exception] does not catch,
    so it returns whenever the registered tools raise only [Exception]s. *)
Theorem unregistered_tool_is_reported tm rx :
  has_type "function_call" rx = true ->
  tm !! name rx = None ->
  (forall post acc nb,
      for_loop (rx :: post) (resolve_item json_loads tm) acc nb
      = for_loop post (resolve_item json_loads tm)
          (acc ++ [function_call_output (call_id rx)
                     (no_tool_registered (name rx))])
          (with_stdout [line (no_tool_registered (name rx))] nb))
  /\ mentions "no tool registered" (no_tool_registered (name rx)) = true
  /\ (forall response nb,
        In rx (Response.output response) ->
        match invoke_functions_from_response json_loads response tm nb with
        | (Returns function_outputs, _) =>
            In (function_call_output (call_id rx)
                  (no_tool_registered (name rx))) function_outputs
        | (Raises e, _) =>
            is_Exception e = false /\ raised_by_registered_tool tm e
        | (Awaiting, _) => False
        end)
  /\ (forall response nb,
        In rx (Response.output response) ->
        registry_raises_only_Exception tm ->
        exists function_outputs nb',
          invoke_functions_from_response json_loads response tm nb
          = (Returns function_outputs, nb')
          /\ In (function_call_output (call_id rx)
                   (no_tool_registered (name rx))) function_outputs).
Proof.
  intros Htype Hnone.
  apply has_type_function_call in Htype as (args & cid & nm & id & ->).
  cbn [name] in Hnone.
  assert (forall response outs,
             In (ResponseFunctionToolCall args cid nm id)
                (Response.output response) ->
             Forall2 (resolves json_loads tm)
                     (function_calls_of response) outs ->
             In (function_call_output cid (no_tool_registered nm)) outs)
    as Hfound.
  { intros response outs Hin Hall.
    destruct (Forall2_In_l _ _ _ (ResponseFunctionToolCall args cid nm id)
                Hall) as (o & Ho & output & -> & Hdesc).
    { unfold function_calls_of. apply filter_In. by split. }
    unfold describes in Hdesc. cbn [name arguments] in Hdesc.
    unfold tool in *. rewrite Hnone in Hdesc. by subst output. }
  split; [|split; [|split]].
  - intros post acc nb. cbn [for_loop resolve_item].
    unfold bind at 1 2. unfold tool_output_for, tool in *. rewrite Hnone.
    reflexivity.
  - apply mentions_no_tool_registered.
  - intros response nb Hin.
    destruct (invoke_cases json_loads tm response nb)
      as (r & nb' & Hrun & _ & _ & Hr).
    rewrite Hrun. destruct r as [outs|e|]; [|exact Hr|exact Hr].
    cbn [call_id name]. by apply (Hfound response).
  - intros response nb Hin Hcontract.
    destruct (invoke_returns json_loads tm response nb Hcontract)
      as (outs & nb' & Hrun & Hall).
    exists outs, nb'. split; [exact Hrun|].
    cbn [call_id name]. by apply (Hfound response).
Qed.

(** C3, as amended.  Where a registered tool raises an exception that
    derives from [Exception], and where the arguments payload does not
    parse, the call is answered by a [function_call_output] with its
    [call_id] whose output is
    [Error executing function call: <name>: <error>], nothing is raised and
    the loop goes on with the items that follow; and when the registered
    tools raise only [Exception]s, [invoke_functions_from_response]
    returns one result for every function call of the response. *)
Theorem tool_errors_become_results tm rx t :
  has_type "function_call" rx = true ->
  tm !! name rx = Some t ->
  (forall post acc nb v e w',
      json_loads (arguments rx) = inl v ->
      t v (world nb) = (inr e, w') ->
      is_Exception e = true ->
      for_loop (rx :: post) (resolve_item json_loads tm) acc nb
      = for_loop post (resolve_item json_loads tm)
          (acc ++ [function_call_output (call_id rx)
                     (error_executing (name rx) e)])
          (Notebook w'
             (stdout nb
                ++ [line ("Invoking tool: " +:+ name rx +:+ "("
                          +:+ py_str v +:+ ")");
                    line (error_executing (name rx) e)])
             (requests nb) (conversation nb) (total_tokens_used nb)))
  /\ (forall post acc nb msg,
        json_loads (arguments rx) = inr msg ->
        for_loop (rx :: post) (resolve_item json_loads tm) acc nb
        = for_loop post (resolve_item json_loads tm)
            (acc ++ [function_call_output (call_id rx)
                       (error_executing (name rx) (JSONDecodeError msg))])
            (Notebook (world nb)
               (stdout nb
                  ++ [line (error_executing (name rx) (JSONDecodeError msg))])
               (requests nb) (conversation nb) (total_tokens_used nb)))
  /\ (registry_raises_only_Exception tm ->
      forall response nb,
      exists function_outputs nb',
        invoke_functions_from_response json_loads response tm nb
        = (Returns function_outputs, nb')
        /\ Forall2 (resolves json_loads tm)
                   (function_calls_of response) function_outputs).
Proof.
  intros Htype Hsome.
  apply has_type_function_call in Htype as (args & cid & nm & id & ->).
  cbn [name arguments call_id] in *. split; [|split].
  - intros post acc nb v e w' Hv Hcall He.
    cbn [for_loop resolve_item].
    unfold bind at 1 2. unfold tool_output_for, tool in *. rewrite Hsome.
    unfold try_except_Exception, bind, loads, print, call, ret, raise.
    rewrite Hv. cbn [world]. rewrite Hcall. cbn [is_Exception]. rewrite He.
    cbn [stdout requests conversation total_tokens_used world].
    by rewrite <- app_assoc.
  - intros post acc nb msg Hmsg.
    cbn [for_loop resolve_item].
    unfold bind at 1 2. unfold tool_output_for, tool in *. rewrite Hsome.
    unfold try_except_Exception, bind, loads, print, call, ret, raise.
    rewrite Hmsg. reflexivity.
  - intros Hcontract response nb.
    exact (invoke_returns json_loads tm response nb Hcontract).
Qed.

(** C9. Sequential resolution.  [invoke_functions_from_response] gives
    what resolving the function calls of the response one at a time, in
    their order, gives: each call is looked up and run in the world the
    call before it left, the results returned are those of the calls in
    that order, and a call whose tool raises past [except Exception] ends
    the resolution with that exception, the calls after it never being
    run; the world left is the one the last call run left.  The item at
    any position of the response is resolved in the state left by the
    complete processing of the items before it, and not at all if one of
    those raised.  When the helper returns, the i-th entry of the list it
    returns is the result of resolving the i-th function call and carries
    its [call_id]; and it returns whenever the registered tools raise only
    [Exception]s. *)
Theorem tool_calls_resolved_in_order tm response nb :
  (exists nb',
      invoke_functions_from_response json_loads response tm nb
      = (match fst (one_at_a_time json_loads tm
                      (function_calls_of response) (world nb)) with
         | inl results => Returns results
         | inr e => Raises e
         end, nb')
      /\ world nb'
         = snd (one_at_a_time json_loads tm
                  (function_calls_of response) (world nb)))
  /\ (forall pre rx post,
        Response.output response = pre ++ rx :: post ->
        invoke_functions_from_response json_loads response tm nb
        = match for_loop pre (resolve_item json_loads tm) [] nb with
          | (Returns acc, nb1) =>
              (acc' <- resolve_item json_loads tm rx acc ;;
               for_loop post (resolve_item json_loads tm) acc')%py nb1
          | (Raises e, nb1) => (Raises e, nb1)
          | (Awaiting, nb1) => (Awaiting, nb1)
          end)
  /\ (forall function_outputs nb',
        invoke_functions_from_response json_loads response tm nb
        = (Returns function_outputs, nb') ->
        Forall2 (resolves json_loads tm)
                (function_calls_of response) function_outputs
        /\ length function_outputs = length (function_calls_of response)
        /\ forall (i : nat) rx,
             function_calls_of response !! i = Some rx ->
             exists output,
               function_outputs !! i
               = Some (function_call_output (call_id rx) output)
               /\ describes json_loads tm (name rx) (arguments rx) output)
  /\ (registry_raises_only_Exception tm ->
      exists function_outputs nb',
        invoke_functions_from_response json_loads response tm nb
        = (Returns function_outputs, nb')).
Proof.
  split; [|split; [|split]].
  - unfold invoke_functions_from_response, function_calls_of.
    exact (resolve_items_one_at_a_time json_loads tm
             (Response.output response) [] nb).
  - intros pre rx post Hout. unfold invoke_functions_from_response.
    rewrite Hout, for_loop_app. unfold bind at 1.
    destruct (for_loop pre (resolve_item json_loads tm) [] nb)
      as [[acc|e|] nb1]; reflexivity.
  - intros outs nb' Hrun.
    destruct (invoke_cases json_loads tm response nb)
      as (r & nb2 & Hrun2 & _ & _ & Hr).
    rewrite Hrun in Hrun2. injection Hrun2 as <- <-.
    split; [exact Hr|]. split.
    + symmetry. eapply Forall2_length. exact Hr.
    + intros i rx Hi.
      destruct (Forall2_lookup_l _ _ _ _ _ Hr Hi)
        as (o & Ho & output & -> & Hdesc).
      by exists output.
  - intros Hcontract.
    destruct (invoke_returns json_loads tm response nb Hcontract)
      as (outs & nb' & Hrun & _).
    eauto.
Qed.

(** C5, as amended.  Termination rule.  In the manual loop, a response
    without function calls ends the turn: the loop returns after it,
    having sent the one request that brought it, printed the message text
    (when there are message items) and left the rest of the script
    untouched.  A response with function calls does not end the turn:
    where the registered tools raise only [Exception]s, the pass stores
    each call with its result and, after them, the message items of the
    response, and prints their text as it does for a final answer; the
    loop goes on from that log, and its next step sends it as the one new
    request.  In the [previous_response_id] loop, a response without
    function calls makes the loop print [response.output_text] and stop
    without sending anything; a response with function calls makes it
    print no message text and send one request whose input is exactly the
    results of this response and whose [previous_response_id] is this
    response's id.  A pass of the manual loop reaches [break] exactly when
    the response has no function call.  A tool exception that
    [except Exception] lets through ends either loop with that exception,
    and no request follows. *)
Theorem turn_ends_without_function_calls tm response script nb :
  (function_calls_of response = [] ->
   response_loop json_loads tm (response :: script) nb
   = (Returns script,
      after_messages response (after_reasoning response (sent nb))))
  /\ (function_calls_of response <> [] ->
      registry_raises_only_Exception tm ->
      exists outputs tool_lines nb1,
        Forall2 (fun rx output =>
                   describes json_loads tm (name rx) (arguments rx) output)
                (function_calls_of response) outputs
        /\ response_cycle json_loads tm response (sent nb)
           = (Returns false, nb1)
        /\ response_loop json_loads tm (response :: script) nb
           = response_loop json_loads tm script nb1
        /\ conversation nb1 = conversation nb ++ appended_for response outputs
        /\ stdout nb1
           = stdout nb ++ reasoning_prints response ++ tool_lines
               ++ message_prints response
        /\ requests nb1
           = requests nb ++ [Request (InputItems (conversation nb)) None]
        /\ exists later,
             requests (snd (response_loop json_loads tm script nb1))
             = requests nb1
                 ++ Request (InputItems (conversation nb1)) None :: later)
  /\ (function_calls_of response = [] ->
      previous_response_loop json_loads tm script response nb
      = (Returns tt,
         with_stdout (reasoning_steps (Response.output response)
                        ++ [line (output_text response)]) nb))
  /\ (function_calls_of response <> [] ->
      registry_raises_only_Exception tm ->
      exists function_outputs nb1,
        invoke_functions_from_response json_loads response tm nb
        = (Returns function_outputs, nb1)
        /\ Forall2 answers (function_calls_of response) function_outputs
        /\ previous_response_loop json_loads tm script response nb
           = let nb2 :=
               with_request
                 (Request (InputItems function_outputs)
                          (Some (Response.id response)))
                 (with_stdout [line "More reasoning required, continuing..."]
                              nb1) in
             match script with
             | [] => (Awaiting, nb2)
             | response' :: script' =>
                 previous_response_loop json_loads tm script' response' nb2
             end)
  /\ (fst (response_cycle json_loads tm response nb) = Returns true
      <-> function_calls_of response = [])
  /\ (forall e nb1,
        response_cycle json_loads tm response (sent nb) = (Raises e, nb1) ->
        is_Exception e = false
        /\ response_loop json_loads tm (response :: script) nb
           = (Raises e, nb1)
        /\ requests nb1
           = requests nb ++ [Request (InputItems (conversation nb)) None])
  /\ (forall e nb1,
        invoke_functions_from_response json_loads response tm nb
        = (Raises e, nb1) ->
        is_Exception e = false
        /\ previous_response_loop json_loads tm script response nb
           = (Raises e, nb1)
        /\ requests nb1 = requests nb).
Proof.
  split; [|split; [|split; [|split; [|split; [|split]]]]].
  - apply response_loop_no_calls.
  - intros Hcalls Hcontract.
    destruct (response_cycle_resolved json_loads tm response (sent nb)
                Hcontract)
      as (outputs & tool_lines & nb1 & Hall & Hrun & Hconv & Hrq & Hout).
    cbn [sent conversation requests stdout] in Hconv, Hrq, Hout.
    assert ((length (function_calls_of response) =? 0)%nat = false)
      as Hfalse.
    { destruct (function_calls_of response); [contradiction | reflexivity]. }
    rewrite Hfalse in Hrun.
    exists outputs, tool_lines, nb1. split; [exact Hall|].
    split; [exact Hrun|].
    rewrite response_loop_cons, Hrun.
    split; [reflexivity|]. split; [exact Hconv|]. split; [exact Hout|].
    split; [exact Hrq|].
    apply response_loop_requests.
  - intros Hnone.
    destruct script; cbn [previous_response_loop]; unfold bind;
      rewrite (invoke_no_calls json_loads tm response nb Hnone);
      unfold with_stdout, print; simpl; by rewrite <- app_assoc.
  - intros Hcalls Hcontract.
    destruct (invoke_returns json_loads tm response nb Hcontract)
      as (outs & nb1 & Hrun & Hall).
    exists outs, nb1. split; [exact Hrun|].
    split; [eapply Forall2_impl; [exact Hall | apply resolves_answers]|].
    assert ((length outs =? 0)%nat = false) as Hlen.
    { apply Forall2_length in Hall.
      destruct (function_calls_of response); [contradiction|].
      destruct outs; [discriminate | reflexivity]. }
    destruct script; cbn [previous_response_loop]; unfold bind;
      rewrite Hrun, Hlen; reflexivity.
  - split.
    + intros Hdone.
      destruct (response_cycle_cases json_loads tm response nb)
        as (r & nb' & Hrun & _ & _ & _ & Hr).
      rewrite Hrun in Hdone. simpl in Hdone. subst r.
      destruct Hr as (Hzero & _). symmetry in Hzero.
      apply Nat.eqb_eq in Hzero. by apply nil_length_inv.
    + intros Hnone. rewrite response_cycle_unfold, Hnone. reflexivity.
  - intros e nb1 Hrun.
    destruct (response_loop_raised json_loads tm response script nb e nb1 Hrun)
      as (He & _ & Hloop & Hrq).
    by repeat split.
  - intros e nb1 Hrun.
    destruct (invoke_cases json_loads tm response nb)
      as (r & nb2 & Hrun2 & (Hrq & _) & _ & Hr).
    rewrite Hrun in Hrun2. injection Hrun2 as <- <-.
    destruct Hr as [He _].
    split; [exact He|]. split; [|by symmetry].
    destruct script; cbn [previous_response_loop]; unfold bind;
      rewrite Hrun; reflexivity.
Qed.

(** C7, as amended.  A response with neither function calls nor message
    items ends the turn like any response without function calls: the
    manual loop returns normally, having stored the reasoning items and
    printed no message text, and the [previous_response_id] loop returns
    normally, having printed the empty output text.  Nothing is raised,
    nothing is retried, and no anomaly is reported. *)
Theorem no_progress_response_ends_the_turn tm response script nb :
  function_calls_of response = [] ->
  messages_of response = [] ->
  response_loop json_loads tm (response :: script) nb
  = (Returns script, after_reasoning response (sent nb))
  /\ previous_response_loop json_loads tm script response nb
     = (Returns tt,
        with_stdout (reasoning_steps (Response.output response) ++ [line ""])
                    nb).
Proof.
  intros Hcalls Hmessages. split.
  - rewrite response_loop_no_calls by exact Hcalls.
    unfold after_messages, message_prints. rewrite Hmessages. simpl.
    by rewrite !app_nil_r.
  - destruct script; cbn [previous_response_loop]; unfold bind;
      rewrite (invoke_no_calls json_loads tm response nb Hcalls);
      rewrite (output_text_no_messages response Hmessages);
      unfold with_stdout, print; simpl; by rewrite <- app_assoc.
Qed.

(** C8, as amended.  When the result of every registered tool is the same
    in every world it may run in, one pass of the response loop ends the
    same way and leaves the same conversation from any two notebooks that
    hold the same conversation: the appended items are a function of the
    log, the response and the registry. *)
Theorem appended_items_are_deterministic tm response nb1 nb2 :
  registry_world_independent tm ->
  conversation nb1 = conversation nb2 ->
  fst (response_cycle json_loads tm response nb1)
  = fst (response_cycle json_loads tm response nb2)
  /\ conversation (snd (response_cycle json_loads tm response nb1))
     = conversation (snd (response_cycle json_loads tm response nb2)).
Proof.
  intros Hind Hconv. rewrite !response_cycle_unfold.
  destruct (length (function_calls_of response) =? 0)%nat.
  - simpl. by rewrite Hconv.
  - pose proof (resolve_items_independent json_loads tm
                  (Response.output response) Hind []
                  (after_reasoning response nb1)
                  (after_reasoning response nb2)) as Hsame.
    fold (invoke_functions_from_response json_loads response tm
            (after_reasoning response nb1)) in Hsame.
    fold (invoke_functions_from_response json_loads response tm
            (after_reasoning response nb2)) in Hsame.
    destruct (invoke_cases json_loads tm response (after_reasoning response nb1))
      as (r1 & n1 & Hrun1 & (_ & Hc1 & _) & _ & _).
    destruct (invoke_cases json_loads tm response (after_reasoning response nb2))
      as (r2 & n2 & Hrun2 & (_ & Hc2 & _) & _ & _).
    rewrite Hrun1, Hrun2 in *. simpl in Hsame. subst r2.
    simpl in Hc1, Hc2.
    destruct r1 as [outs|e|]; simpl; rewrite Hc1, Hc2, Hconv; auto.
Qed.

(** C10. Token accounting.  After the manual orchestration
    [total_tokens_used] is the sum of [usage.total_tokens] over the
    responses received, which are the first responses of the script, one
    for every request sent (but the last, if it was left unanswered);
    every pass of the response loop adds the tokens of its response,
    whether it then returns or a tool's exception ends it; and, token
    counts being non-negative, the accumulator never decreases over the
    turns. *)
Theorem total_tokens_used_sums_the_responses tm :
  (forall user_messages script nb,
      let '(r, nb') :=
        manual_orchestration json_loads tm user_messages script nb in
      exists received rest,
        script = received ++ rest
        /\ total_tokens_used nb' = sum_tokens received
        /\ length (requests nb')
           = (length (requests nb) + length received + pending r)%nat)
  /\ (forall response nb,
        total_tokens_used (snd (response_cycle json_loads tm response nb))
        = total_tokens_used nb + Response.total_tokens response)
  /\ (forall user_messages script nb,
        Forall (fun response => 0 <= Response.total_tokens response) script ->
        total_tokens_used nb
        <= total_tokens_used
             (snd (user_turns json_loads tm user_messages script nb))).
Proof.
  split; [|split].
  - intros user_messages script nb.
    rewrite manual_orchestration_unfold.
    destruct (user_turns_tokens json_loads tm user_messages script
                (Notebook (world nb) (stdout nb) (requests nb) [] 0))
      as (r & nb1 & received & rest & Hrun & Hscript & Htot & Hlen & _).
    rewrite Hrun. simpl in Htot, Hlen.
    destruct r as [script'|e|];
      [destruct (print_total_cases (total_tokens_used nb1) nb1)
         as [->|[e ->]]| |];
      simpl; exists received, rest; repeat split; auto; lia.
  - intros response nb.
    destruct (response_cycle_cases json_loads tm response nb)
      as (r & nb' & Hrun & _ & Htot & _).
    rewrite Hrun. exact Htot.
  - intros user_messages script nb Hpos.
    destruct (user_turns_tokens json_loads tm user_messages script nb)
      as (r & nb1 & received & rest & Hrun & Hscript & Htot & _).
    rewrite Hrun. simpl. rewrite Htot.
    assert (0 <= sum_tokens received); [|lia].
    apply sum_tokens_nonneg. subst script.
    by apply Forall_app in Hpos as [Hpos _].
Qed.

End Claims.

(** * The claims on the examples *)

Lemma fixed_id_tools_are_world_independent :
  registry_world_independent fixed_id_tool_mapping.
Proof.
  intros nm t Hnm. unfold fixed_id_tool_mapping in Hnm.
  apply lookup_singleton_Some in Hnm as [_ <-].
  intros args w1 w2. reflexivity.
Qed.



Lemma unregistered_tool_is_reported_witness :
  exists function_outputs nb',
    invoke_functions_from_response example_json_loads mixed_response
      notebook_tool_mapping fresh_notebook
    = (Returns function_outputs, nb')
    /\ In (function_call_output "call_2"
             "ERROR - No tool registered for function call: unknown_tool")
          function_outputs.
Proof.
  destruct (unregistered_tool_is_reported example_json_loads
              notebook_tool_mapping unknown_call eq_refl eq_refl)
    as (_ & _ & _ & H).
  apply (H mixed_response fresh_notebook).
  - simpl. auto.
  - exact notebook_tools_raise_only_Exception.
Defined.

(** C3 fails as stated: a registered tool that raises [SystemExit] is not
    answered; the exception leaves [invoke_functions_from_response], and
    the calls after it are not processed. *)
Lemma system_exit_leaves_the_loop :
  let r := invoke_functions_from_response example_json_loads mixed_response
             exiting_tool_mapping fresh_notebook in
  fst r = Raises (SystemExit "2")
  /\ stdout (snd r) = [line "Invoking tool: get_city_uuid({'city': 'London'})"].
Proof. vm_compute. split; reflexivity. Qed.

Lemma tool_errors_become_results_witness :
  fst (for_loop [town_call; malformed_call]
         (resolve_item example_json_loads notebook_tool_mapping) []
         fresh_notebook)
  = Returns
      [function_call_output "call_3"
         (error_executing "get_city_uuid"
            (TypeError
               "get_city_uuid() got an unexpected keyword argument 'town'"));
       function_call_output "call_4"
         (error_executing "get_city_uuid"
            (JSONDecodeError "Expecting value: line 1 column 1 (char 0)"))].
Proof.
  destruct (tool_errors_become_results example_json_loads
              notebook_tool_mapping town_call get_city_uuid_tool
              eq_refl eq_refl) as (Hraise & _ & _).
  rewrite (Hraise [malformed_call] [] fresh_notebook
             (PyDict "{'town': 'London'}" [("town", PyStr "London")])
             (TypeError
                "get_city_uuid() got an unexpected keyword argument 'town'")
             counting_entropy eq_refl eq_refl eq_refl).
  destruct (tool_errors_become_results example_json_loads
              notebook_tool_mapping malformed_call get_city_uuid_tool
              eq_refl eq_refl) as (_ & Hparse & _).
  rewrite (Hparse [] _ _ "Expecting value: line 1 column 1 (char 0)" eq_refl).
  reflexivity.
Defined.

Lemma appended_items_are_ordered_witness :
  exists done,
    fst (response_cycle example_json_loads notebook_tool_mapping
           london_response fresh_notebook)
    = Returns done.
Proof.
  pose proof (appended_items_are_ordered example_json_loads
                notebook_tool_mapping london_response fresh_notebook) as H.
  destruct (response_cycle example_json_loads notebook_tool_mapping
              london_response fresh_notebook) as [r nb'].
  destruct H as [_ H].
  exact (H notebook_tools_raise_only_Exception).
Defined.

(** C5 fails as stated: for a response that has a function call and a
    message, the manual loop prints the message text and the turn goes
    on. *)
Lemma message_text_is_printed_while_the_turn_goes_on :
  let r := response_cycle example_json_loads notebook_tool_mapping
             partial_response fresh_notebook in
  fst r = Returns false
  /\ function_calls_of partial_response = [london_call]
  /\ stdout (snd r)
     = [line "Invoking tool: get_city_uuid({'city': 'London'})";
        line "partial answer"].
Proof. vm_compute. repeat split; reflexivity. Qed.

Lemma turn_ends_without_function_calls_witness :
  response_loop example_json_loads notebook_tool_mapping
    [done_response] fresh_notebook
  = (Returns [],
     after_messages done_response
       (after_reasoning done_response (sent fresh_notebook)))
  /\ exists outputs tool_lines nb1,
       response_cycle example_json_loads notebook_tool_mapping
         partial_response (sent fresh_notebook)
       = (Returns false, nb1)
       /\ response_loop example_json_loads notebook_tool_mapping
            [partial_response; done_response] fresh_notebook
          = response_loop example_json_loads notebook_tool_mapping
              [done_response] nb1
       /\ conversation nb1 = appended_for partial_response outputs
       /\ stdout nb1 = tool_lines ++ [line "partial answer"].
Proof.
  split.
  - exact (proj1 (turn_ends_without_function_calls example_json_loads
                    notebook_tool_mapping done_response [] fresh_notebook)
             eq_refl).
  - destruct (proj1 (proj2 (turn_ends_without_function_calls
                              example_json_loads notebook_tool_mapping
                              partial_response [done_response]
                              fresh_notebook)))
      as (outputs & tool_lines & nb1 & _ & Hrun & Hloop & Hconv & Hout & _).
    + discriminate.
    + exact notebook_tools_raise_only_Exception.
    + exists outputs, tool_lines, nb1.
      split; [exact Hrun|]. split; [exact Hloop|]. split; [exact Hconv|].
      exact Hout.
Defined.

Lemma conversation_is_append_only_witness :
  conversation
    (snd (response_cycle example_json_loads notebook_tool_mapping
            london_response (begun "id for London?" fresh_notebook)))
    !! 0%nat
  = Some (user_message "id for London?").
Proof.
  apply (proj2 (proj2 (conversation_is_append_only example_json_loads
                         notebook_tool_mapping london_response []
                         (begun "id for London?" fresh_notebook)))
           0%nat (user_message "id for London?")).
  reflexivity.
Defined.

(** C7 fails as stated: a response that has reasoning only ends the turn
    like a final answer.  The loop returns normally with the rest of the
    script, and prints nothing but the usual notice and the summary. *)
Lemma reasoning_only_response_ends_the_turn_silently :
  let r := response_loop example_json_loads notebook_tool_mapping
             [reasoning_only_response; done_response] fresh_notebook in
  fst r = Returns [done_response]
  /\ stdout (snd r)
     = [line "More reasoning required, continuing..."; line "Thinking"]
  /\ length (requests (snd r)) = 1%nat.
Proof. vm_compute. repeat split; reflexivity. Qed.

Lemma no_progress_response_ends_the_turn_witness :
  response_loop example_json_loads notebook_tool_mapping
    [reasoning_only_response; done_response] fresh_notebook
  = (Returns [done_response],
     after_reasoning reasoning_only_response (sent fresh_notebook)).
Proof.
  exact (proj1 (no_progress_response_ends_the_turn example_json_loads
                  notebook_tool_mapping reasoning_only_response
                  [done_response] fresh_notebook eq_refl eq_refl)).
Defined.

(** C8 fails as stated: with [get_city_uuid] in the registry, a second
    pass on the same log and the same response appends another result,
    since [uuid4] draws fresh entropy. *)
Lemma uuid_outputs_differ_between_runs :
  let first := response_cycle example_json_loads notebook_tool_mapping
                 london_response fresh_notebook in
  let again := response_cycle example_json_loads notebook_tool_mapping
                 london_response
                 (Notebook (world (snd first)) [] [] [] 0) in
  conversation (snd first) <> conversation (snd again).
Proof. vm_compute. intros H. discriminate H. Qed.

Lemma appended_items_are_deterministic_witness :
  conversation
    (snd (response_cycle example_json_loads fixed_id_tool_mapping
            london_response fresh_notebook))
  = conversation
      (snd (response_cycle example_json_loads fixed_id_tool_mapping
              london_response
              (Notebook (Uuid.Entropy (fun _ => 7%N) 3) [] [] [] 0))).
Proof.
  exact (proj2 (appended_items_are_deterministic example_json_loads
                  fixed_id_tool_mapping london_response fresh_notebook
                  (Notebook (Uuid.Entropy (fun _ => 7%N) 3) [] [] [] 0)
                  fixed_id_tools_are_world_independent eq_refl)).
Defined.

Lemma tool_calls_resolved_in_order_witness :
  exists nb',
    invoke_functions_from_response example_json_loads two_call_response
      notebook_tool_mapping fresh_notebook
    = (Returns
         [function_call_output "call_VcyIJQnP7HW2gge7Nh8HmPNG"
            "London ID: ce863d03-9c01-4de2-9af8-96b123852aec";
          function_call_output "call_5"
            "London ID: cfa9826b-25ad-4bd1-9c1b-dc18ad30f8db"],
       nb')
    /\ Uuid.reads (world nb') = 2%nat.
Proof.
  destruct (proj1 (tool_calls_resolved_in_order example_json_loads
                     notebook_tool_mapping two_call_response fresh_notebook))
    as (nb' & Hrun & Hworld).
  exists nb'. split.
  - exact Hrun.
  - rewrite Hworld. reflexivity.
Defined.

Lemma total_tokens_used_sums_the_responses_witness :
  0 <= total_tokens_used
         (snd (user_turns example_json_loads notebook_tool_mapping
                 ["id for London?"] [london_response; done_response]
                 fresh_notebook)).
Proof.
  apply (proj2 (proj2 (total_tokens_used_sums_the_responses
                         example_json_loads notebook_tool_mapping))
           ["id for London?"] [london_response; done_response]
           fresh_notebook).
  constructor; [simpl; lia|].
  constructor; [simpl; lia|].
  constructor.
Defined.

(** ** The scenarios of the notebook *)

(** A call of the registered tool: one result with the [call_id] of the
    call is appended, and the loop is to go on. *)
Example registered_tool_scenario :
  let r := response_cycle example_json_loads notebook_tool_mapping
             (Response.Build "resp_5" [london_call] 10)
             (begun "What is the internal ID of London?" fresh_notebook) in
  fst r = Returns false
  /\ conversation (snd r)
     = [user_message "What is the internal ID of London?";
        to_dict london_call;
        function_call_output "call_VcyIJQnP7HW2gge7Nh8HmPNG"
          "London ID: ce863d03-9c01-4de2-9af8-96b123852aec"].
Proof. vm_compute. split; reflexivity. Qed.

(** A final answer: its text is printed and the loop ends. *)
Example final_answer_scenario :
  let r := response_loop example_json_loads notebook_tool_mapping
             [done_response] fresh_notebook in
  fst r = Returns [] /\ stdout (snd r) = [line "done"].
Proof. vm_compute. split; reflexivity. Qed.

(** A call of an unknown tool: the result says so, and nothing is raised. *)
Example unknown_tool_scenario :
  fst (invoke_functions_from_response example_json_loads
         (Response.Build "resp_6" [unknown_call] 10)
         notebook_tool_mapping fresh_notebook)
  = Returns
      [function_call_output "call_2"
         "ERROR - No tool registered for function call: unknown_tool"].
Proof. vm_compute. reflexivity. Qed.

(** The single-call snippet on the same call raises [ValueError]. *)
Example single_call_snippet_scenario :
  fst (extract_function_calls example_json_loads
         (Response.Build "resp_6" [unknown_call] 10)
         notebook_tool_mapping fresh_notebook)
  = Raises (ValueError "No tool found for function call: unknown_tool").
Proof. vm_compute. reflexivity. Qed.

(** A whole run of the manual orchestration over two user messages. *)
Example manual_orchestration_scenario :
  let r := manual_orchestration example_json_loads notebook_tool_mapping
             ["first"; "again"]
             [london_response; done_response; london_response; done_response]
             fresh_notebook in
  fst r = Returns tt
  /\ total_tokens_used (snd r) = 476
  /\ length (requests (snd r)) = 4%nat
  /\ forallb request_answered (requests (snd r)) = true.
Proof. vm_compute. repeat split; reflexivity. Qed.

(** * Further properties of the notebook *)

Section MoreFacts.

Context {World : Type}.
Variable json_loads : string -> pyobj + string.
Implicit Types (tm : gmap string (tool World)) (nb : notebook World).
Implicit Types (rx : output_item) (response : Response).

Local Open Scope py_scope.

(** ** The single-call snippet and the helper that wraps it *)

Lemma extract_item_cases tm rx acc nb :
  has_type "function_call" rx = true ->
  extract_item json_loads tm rx acc nb
  = match tm !! name rx with
    | None =>
        (Raises (ValueError ("No tool found for function call: " +:+ name rx)),
         nb)
    | Some t =>
        match json_loads (arguments rx) with
        | inr msg => (Raises (JSONDecodeError msg), nb)
        | inl v =>
            match t v (world nb) with
            | (inl s, w) =>
                (Returns (acc ++ [function_call_output (call_id rx) s]),
                 Notebook w (stdout nb) (requests nb) (conversation nb)
                          (total_tokens_used nb))
            | (inr e, w) =>
                (Raises e,
                 Notebook w (stdout nb) (requests nb) (conversation nb)
                          (total_tokens_used nb))
            end
        end
    end.
Proof.
  intros Htype.
  apply has_type_function_call in Htype as (payload & cid & nm & id & ->).
  cbn [extract_item name arguments call_id]. unfold tool in *.
  destruct (tm !! nm) as [t|]; [|reflexivity].
  unfold bind, loads, call, ret, raise.
  destruct (json_loads payload) as [v|msg]; [|reflexivity].
  destruct (t v (world nb)) as [[s|e] w]; reflexivity.
Qed.

Lemma for_loop_raises {A B} (l : list A) (body : A -> B -> Py World B)
    x acc e nb nb1 :
  body x acc nb = (Raises e, nb1) ->
  for_loop (x :: l) body acc nb = (Raises e, nb1).
Proof. intros H. cbn [for_loop]. unfold bind. by rewrite H. Qed.

Lemma extract_resolve_agree tm (l : list output_item) :
  forall acc nb nb' outs nb1,
    world nb' = world nb ->
    for_loop (List.filter (has_type "function_call") l)
             (extract_item json_loads tm) acc nb
    = (Returns outs, nb1) ->
    exists nb2,
      for_loop l (resolve_item json_loads tm) acc nb' = (Returns outs, nb2)
      /\ world nb2 = world nb1.
Proof.
  induction l as [|rx l IH]; intros acc nb nb' outs nb1 Hworld Hrun.
  - simpl in *. injection Hrun as <- <-. eauto.
  - destruct (has_type "function_call" rx) eqn:Htype.
    + cbn [List.filter] in Hrun. rewrite Htype in Hrun.
      cbn [for_loop] in Hrun. unfold bind in Hrun.
      rewrite (extract_item_cases tm rx acc nb Htype) in Hrun.
      apply has_type_function_call in Htype as (payload & cid & nm & id & ->).
      cbn [name arguments call_id] in Hrun.
      cbn [for_loop resolve_item]. unfold bind at 1 2.
      unfold tool_output_for, tool in *.
      destruct (tm !! nm) as [t|]; [|discriminate].
      unfold try_except_Exception, bind, loads, print, call, ret, raise.
      destruct (json_loads payload) as [v|msg]; [|discriminate].
      cbn [world]. rewrite Hworld.
      destruct (t v (world nb)) as [[s|e] w]; [|discriminate].
      eapply IH; [|exact Hrun]. reflexivity.
    + cbn [List.filter] in Hrun. rewrite Htype in Hrun.
      cbn [for_loop]. unfold bind.
      destruct rx; try discriminate; cbn [resolve_item];
        unfold bind, print, ret;
        (eapply IH; [|exact Hrun]); exact Hworld.
Qed.

Lemma extract_loop_frame tm (l : list output_item) :
  forall acc nb,
    let r := for_loop l (extract_item json_loads tm) acc nb in
    stdout (snd r) = stdout nb /\ same_globals nb (snd r).
Proof.
  induction l as [|rx l IH]; intros acc nb; simpl.
  - split; [reflexivity | apply same_globals_refl].
  - unfold bind.
    assert (stdout (snd (extract_item json_loads tm rx acc nb)) = stdout nb
            /\ same_globals nb (snd (extract_item json_loads tm rx acc nb)))
      as [Hout Hsame].
    { destruct (has_type "function_call" rx) eqn:Htype.
      - rewrite (extract_item_cases tm rx acc nb Htype).
        destruct (tm !! name rx) as [t|];
          [|split; [reflexivity | apply same_globals_refl]].
        destruct (json_loads (arguments rx));
          [|split; [reflexivity | apply same_globals_refl]].
        destruct (t p (world nb)) as [[s|e] w]; simpl; by repeat split.
      - destruct rx; try discriminate; simpl;
          (split; [reflexivity | apply same_globals_refl]). }
    destruct (extract_item json_loads tm rx acc nb) as [[acc'|e|] nb1];
      simpl in *; auto.
    destruct (IH acc' nb1) as [Hout2 Hsame2]. simpl in *.
    split; [congruence | eapply same_globals_trans; eauto].
Qed.

(** ** The [previous_response_id] loop *)

Lemma previous_response_loop_unfold tm script response nb :
  previous_response_loop json_loads tm script response nb
  = match invoke_functions_from_response json_loads response tm nb with
    | (Returns function_responses, nb1) =>
        if (length function_responses =? 0)%nat then
          (Returns tt, with_stdout [line (output_text response)] nb1)
        else
          let nb2 :=
            with_request
              (Request (InputItems function_responses)
                       (Some (Response.id response)))
              (with_stdout [line "More reasoning required, continuing..."]
                           nb1) in
          match script with
          | [] => (Awaiting, nb2)
          | response' :: script' =>
              previous_response_loop json_loads tm script' response' nb2
          end
    | (Raises e, nb1) => (Raises e, nb1)
    | (Awaiting, nb1) => (Awaiting, nb1)
    end.
Proof.
  destruct script; cbn [previous_response_loop]; unfold bind;
    destruct (invoke_functions_from_response json_loads response tm nb)
      as [[outs|e|] nb1]; try reflexivity;
    destruct (length outs =? 0)%nat; reflexivity.
Qed.


(** ** Runs that reach the answer *)

Lemma response_cycle_continues tm response nb :
  registry_raises_only_Exception tm ->
  function_calls_of response <> [] ->
  exists nb1,
    response_cycle json_loads tm response nb = (Returns false, nb1)
    /\ requests nb1 = requests nb
    /\ total_tokens_used nb1
       = total_tokens_used nb + Response.total_tokens response.
Proof.
  intros Hcontract Hcalls.
  destruct (response_cycle_cases json_loads tm response nb)
    as (r & nb1 & Hrun & Hrq & Htot & _ & Hr).
  destruct r as [done|e|]; [| |contradiction].
  - destruct Hr as (-> & _). exists nb1. rewrite Hrun.
    destruct (function_calls_of response); [contradiction|]. by repeat split.
  - destruct Hr as (He & Hby & _).
    rewrite (contract_excludes tm e Hcontract Hby) in He. discriminate.
Qed.

Lemma response_loop_runs_through tm pre response post :
  registry_raises_only_Exception tm ->
  Forall (fun r => function_calls_of r <> []) pre ->
  function_calls_of response = [] ->
  forall nb,
  exists nb',
    response_loop json_loads tm (pre ++ response :: post) nb
    = (Returns post, nb')
    /\ length (requests nb') = (length (requests nb) + length pre + 1)%nat
    /\ total_tokens_used nb'
       = total_tokens_used nb + sum_tokens (pre ++ [response]).
Proof.
  intros Hcontract Hpre Hnone.
  induction Hpre as [|p pre Hp _ IH]; intros nb.
  - cbn [app]. rewrite response_loop_no_calls by exact Hnone.
    eexists. split; [reflexivity|]. simpl. rewrite length_app. simpl.
    split; lia.
  - cbn [app]. rewrite response_loop_cons.
    destruct (response_cycle_continues tm p (sent nb) Hcontract Hp)
      as (nb1 & Hrun & Hrq & Htot).
    rewrite Hrun. destruct (IH nb1) as (nb' & Hloop & Hlen & Htot').
    exists nb'. split; [exact Hloop|].
    rewrite Hlen, Htot', Hrq, Htot. simpl. rewrite length_app. simpl.
    change (foldr _ 0 (pre ++ [response]))
      with (sum_tokens (pre ++ [response])).
    split; lia.
Qed.

Lemma previous_response_loop_runs_through tm pre final post :
  registry_raises_only_Exception tm ->
  Forall (fun r => function_calls_of r <> []) pre ->
  function_calls_of final = [] ->
  forall current rest nb,
    current :: rest = pre ++ final :: post ->
    exists nb',
      previous_response_loop json_loads tm rest current nb = (Returns tt, nb')
      /\ length (requests nb') = (length (requests nb) + length pre)%nat
      /\ last (stdout nb') = Some (line (output_text final)).
Proof.
  intros Hcontract Hpre Hnone.
  induction Hpre as [|p pre Hp _ IH]; intros current rest nb Hseq.
  - simpl in Hseq. injection Hseq as -> ->.
    rewrite previous_response_loop_unfold.
    rewrite (invoke_no_calls json_loads tm final nb Hnone). simpl.
    eexists. split; [reflexivity|]. simpl. split; [lia|].
    apply last_snoc.
  - simpl in Hseq. injection Hseq as -> ->.
    rewrite previous_response_loop_unfold.
    destruct (invoke_returns json_loads tm p nb Hcontract)
      as (outs & nb1 & Hrun & Hall).
    destruct (invoke_cases json_loads tm p nb)
      as (r & nb1' & Hrun' & (Hrq & _) & _).
    rewrite Hrun in Hrun'. injection Hrun' as <- <-.
    rewrite Hrun.
    assert ((length outs =? 0)%nat = false) as ->.
    { apply Forall2_length in Hall.
      destruct (function_calls_of p); [contradiction|].
      destruct outs; [discriminate | reflexivity]. }
    cbv zeta.
    destruct (pre ++ final :: post) as [|current' rest'] eqn:Hrest.
    { destruct pre; discriminate. }
    match goal with
    | |- context [previous_response_loop json_loads tm rest' current' ?n] =>
        destruct (IH current' rest' n eq_refl) as (nb' & Hloop & Hlen & Hlast)
    end.
    exists nb'. split; [exact Hloop|]. split; [|exact Hlast].
    rewrite Hlen. simpl. rewrite length_app, Hrq. simpl. lia.
Qed.

(** ** Runs that cannot raise *)

Lemma response_loop_never_raises tm script :
  registry_raises_only_Exception tm ->
  forall nb, raises (fst (response_loop json_loads tm script nb)) = false.
Proof.
  intros Hcontract. induction script as [|response script IH]; intros nb.
  - reflexivity.
  - rewrite response_loop_cons.
    destruct (response_cycle_cases json_loads tm response (sent nb))
      as (r & nb1 & Hrun & _ & _ & _ & Hr).
    rewrite Hrun. destruct r as [[|]|e|]; [reflexivity|apply IH| |contradiction].
    destruct Hr as (He & Hby & _).
    rewrite (contract_excludes tm e Hcontract Hby) in He. discriminate.
Qed.

Lemma user_turns_never_raises tm user_messages :
  registry_raises_only_Exception tm ->
  forall script nb,
    raises (fst (user_turns json_loads tm user_messages script nb)) = false.
Proof.
  intros Hcontract.
  induction user_messages as [|message user_messages IH]; intros script nb.
  - reflexivity.
  - rewrite user_turns_cons.
    pose proof (response_loop_never_raises tm script Hcontract
                  (begun message nb)) as Hloop.
    destruct (response_loop json_loads tm script (begun message nb))
      as [[script'|e|] nb1]; [apply IH|discriminate|reflexivity].
Qed.

Lemma previous_response_loop_never_raises tm script :
  registry_raises_only_Exception tm ->
  forall response nb,
    raises (fst (previous_response_loop json_loads tm script response nb))
    = false.
Proof.
  intros Hcontract.
  induction script as [|response' script IH]; intros response nb;
    rewrite previous_response_loop_unfold;
    destruct (invoke_returns json_loads tm response nb Hcontract)
      as (outs & nb1 & -> & _);
    destruct (length outs =? 0)%nat; try reflexivity.
  apply IH.
Qed.

(** ** The user messages of the log *)

Lemma user_messages_of_app (a b : list conversation_item) :
  user_messages_of (a ++ b) = user_messages_of a ++ user_messages_of b.
Proof. unfold user_messages_of. apply flat_map_app. Qed.

Lemma user_messages_of_items (l : list output_item) :
  user_messages_of (map to_dict l) = [].
Proof. induction l; simpl; auto. Qed.

Lemma user_messages_of_pairs (calls : list output_item) :
  forall outputs, user_messages_of (pairs calls outputs) = [].
Proof. induction calls as [|rx calls IH]; intros [|o outputs]; simpl; auto. Qed.

Lemma response_cycle_user_messages tm response nb :
  user_messages_of
    (conversation (snd (response_cycle json_loads tm response nb)))
  = user_messages_of (conversation nb).
Proof.
  destruct (response_cycle_cases json_loads tm response nb)
    as (r & nb1 & Hrun & _ & _ & _ & Hr).
  rewrite Hrun. simpl. destruct r as [done|e|]; [| |contradiction].
  - destruct Hr as (_ & outputs & _ & ->).
    rewrite !user_messages_of_app, !user_messages_of_items,
      user_messages_of_pairs. by rewrite !app_nil_r.
  - destruct Hr as (_ & _ & ->).
    rewrite user_messages_of_app, user_messages_of_items. by rewrite app_nil_r.
Qed.

Lemma response_loop_user_messages tm script :
  forall nb,
    user_messages_of
      (conversation (snd (response_loop json_loads tm script nb)))
    = user_messages_of (conversation nb).
Proof.
  induction script as [|response script IH]; intros nb.
  - reflexivity.
  - rewrite response_loop_cons.
    pose proof (response_cycle_user_messages tm response (sent nb)) as Hcycle.
    destruct (response_cycle json_loads tm response (sent nb))
      as [[[|]|e|] nb1]; simpl in *; try exact Hcycle.
    by rewrite IH.
Qed.

Lemma user_turns_user_messages tm user_messages :
  forall script nb,
  exists k,
    user_messages_of
      (conversation (snd (user_turns json_loads tm user_messages script nb)))
    = user_messages_of (conversation nb) ++ take k user_messages
    /\ (forall script',
          fst (user_turns json_loads tm user_messages script nb)
          = Returns script' ->
          take k user_messages = user_messages).
Proof.
  induction user_messages as [|message user_messages IH]; intros script nb.
  - exists 0%nat. simpl. by rewrite app_nil_r.
  - rewrite user_turns_cons.
    pose proof (response_loop_user_messages tm script (begun message nb))
      as Hloop.
    simpl in Hloop. rewrite user_messages_of_app in Hloop. simpl in Hloop.
    destruct (response_loop json_loads tm script (begun message nb))
      as [[script1|e|] nb1]; simpl in Hloop.
    + destruct (IH script1 nb1) as (k & Hk & Hdone).
      exists (S k). rewrite Hk, Hloop, <- app_assoc. simpl.
      split; [reflexivity|]. intros script' Hret. by rewrite (Hdone script').
    + exists 1%nat. simpl. rewrite take_0. split; [exact Hloop|]. discriminate.
    + exists 1%nat. simpl. rewrite take_0. split; [exact Hloop|]. discriminate.
Qed.

(** ** The logs the requests carry *)

Lemma carries_between_weaken lo lo' hi hi' rq :
  lo' `prefix_of` lo -> hi `prefix_of` hi' ->
  carries_between lo hi rq -> carries_between lo' hi' rq.
Proof.
  intros Hlo Hhi (log & Hin & H1 & H2). exists log.
  split; [exact Hin|]. split; etrans; eauto.
Qed.

Lemma resends_between lo mid hi hi' r1 r2 :
  carries_between lo mid r1 -> carries_between mid hi r2 ->
  hi `prefix_of` hi' -> resends r1 r2.
Proof.
  intros (l1 & H1 & _ & Hl1) (l2 & H2 & Hl2 & _) _.
  exists l1, l2. split; [exact H1|]. split; [exact H2|]. by etrans.
Qed.

Lemma response_cycle_grows tm response nb :
  conversation nb
    `prefix_of` conversation (snd (response_cycle json_loads tm response nb)).
Proof.
  destruct (response_cycle_cases json_loads tm response nb)
    as (r & nb1 & Hrun & _ & _ & _ & Hr).
  rewrite Hrun. simpl. destruct r as [done|e|]; [| |contradiction].
  - destruct Hr as (_ & outputs & _ & ->). by apply prefix_app_r.
  - destruct Hr as (_ & _ & ->). by apply prefix_app_r.
Qed.

Lemma response_loop_chain tm script :
  forall nb,
  exists new,
    requests (snd (response_loop json_loads tm script nb))
    = requests nb ++ new
    /\ StronglySorted resends new
    /\ Forall (carries_between
                 (conversation nb)
                 (conversation (snd (response_loop json_loads tm script nb))))
              new
    /\ conversation nb
         `prefix_of`
         conversation (snd (response_loop json_loads tm script nb)).
Proof.
  induction script as [|response script IH]; intros nb.
  - rewrite response_loop_nil. eexists [_]. simpl.
    split; [reflexivity|]. split; [repeat constructor|].
    split; [|done]. constructor; [|constructor].
    eexists. split; [reflexivity|]. done.
  - rewrite response_loop_cons.
    pose proof (response_cycle_grows tm response (sent nb)) as Hgrow.
    destruct (response_cycle_cases json_loads tm response (sent nb))
      as (r & nb1 & Hrun & Hrq & _).
    rewrite Hrun in *. simpl in Hgrow.
    assert (carries_between (conversation nb) (conversation nb)
              (Request (InputItems (conversation nb)) None)) as Hfirst.
    { eexists. split; [reflexivity|]. done. }
    destruct r as [[|]|e|]; simpl;
      try (eexists [_]; rewrite Hrq; split; [reflexivity|];
           split; [repeat constructor|];
           split; [|exact Hgrow];
           constructor; [|constructor];
           eapply carries_between_weaken; [| |exact Hfirst]; done).
    destruct (IH nb1) as (new & Hnew & Hsorted & Hall & Hgrow1).
    eexists (_ :: new). rewrite Hnew, Hrq. simpl. rewrite <- app_assoc.
    split; [reflexivity|]. split; [|split].
    + constructor; [exact Hsorted|].
      eapply Forall_impl; [exact Hall|]. intros rq Hrq'.
      eapply resends_between; [| |reflexivity].
      * eapply carries_between_weaken; [| |exact Hfirst]; [done|exact Hgrow].
      * exact Hrq'.
    + constructor.
      * eapply carries_between_weaken; [| |exact Hfirst]; [done|by etrans].
      * eapply Forall_impl; [exact Hall|]. intros rq Hrq'.
        eapply carries_between_weaken; [| |exact Hrq']; done.
    + by etrans.
Qed.

Lemma user_turns_chain tm user_messages :
  forall script nb,
  exists new,
    requests (snd (user_turns json_loads tm user_messages script nb))
    = requests nb ++ new
    /\ StronglySorted resends new
    /\ Forall (carries_between
                 (conversation nb)
                 (conversation
                    (snd (user_turns json_loads tm user_messages script nb))))
              new
    /\ conversation nb
         `prefix_of`
         conversation (snd (user_turns json_loads tm user_messages script nb)).
Proof.
  induction user_messages as [|message user_messages IH]; intros script nb.
  - exists []. simpl. rewrite app_nil_r. repeat split; try constructor. done.
  - rewrite user_turns_cons.
    destruct (response_loop_chain tm script (begun message nb))
      as (new & Hnew & Hsorted & Hall & Hgrow).
    assert (conversation nb `prefix_of` conversation (begun message nb))
      as Hbegun by (simpl; by apply prefix_app_r).
    destruct (response_loop json_loads tm script (begun message nb))
      as [[script1|e|] nb1]; simpl in Hnew, Hall, Hgrow |- *;
      try (exists new; split; [exact Hnew|]; split; [exact Hsorted|];
           split; [|by etrans];
           eapply Forall_impl; [exact Hall|]; intros rq Hrq;
           eapply carries_between_weaken; [| |exact Hrq]; done).
    destruct (IH script1 nb1) as (new2 & Hnew2 & Hsorted2 & Hall2 & Hgrow2).
    exists (new ++ new2). rewrite Hnew2, Hnew, <- app_assoc.
    split; [reflexivity|]. split; [|split].
    + apply StronglySorted_app. split; [|by split].
      intros r1 r2 Hr1 Hr2.
      rewrite Forall_forall in Hall. rewrite Forall_forall in Hall2.
      eapply resends_between; [apply Hall, Hr1 | apply Hall2, Hr2 | reflexivity].
    + apply Forall_app. split.
      * eapply Forall_impl; [exact Hall|]. intros rq Hrq.
        eapply carries_between_weaken; [| |exact Hrq]; [done|exact Hgrow2].
      * eapply Forall_impl; [exact Hall2|]. intros rq Hrq.
        eapply carries_between_weaken; [| |exact Hrq]; [by etrans|done].
    + etrans; [exact Hbegun|]. by etrans.
Qed.

(** ** The log at the end of a run *)

Lemma response_cycle_keeps_answered tm response nb :
  answered (conversation nb) = true ->
  answered (conversation (snd (response_cycle json_loads tm response nb)))
  = true.
Proof.
  intros Hnb.
  destruct (response_cycle_cases json_loads tm response nb)
    as (r & nb1 & Hrun & _ & _ & _ & Hr).
  rewrite Hrun. simpl. unfold reasoning_of, function_calls_of, messages_of in Hr.
  destruct r as [done|e|]; [| |contradiction].
  - destruct Hr as (_ & outputs & _ & ->).
    rewrite answered_app by exact Hnb.
    rewrite answered_app by (apply (answered_filter_other json_loads); discriminate).
    rewrite answered_app
      by (apply answered_pairs; apply (filter_has_type json_loads)).
    apply (answered_filter_other json_loads); discriminate.
  - destruct Hr as (_ & _ & ->).
    rewrite answered_app by exact Hnb.
    apply (answered_filter_other json_loads); discriminate.
Qed.

Lemma response_loop_keeps_answered tm script :
  forall nb,
    answered (conversation nb) = true ->
    answered (conversation (snd (response_loop json_loads tm script nb)))
    = true.
Proof.
  induction script as [|response script IH]; intros nb Hnb.
  - exact Hnb.
  - rewrite response_loop_cons.
    pose proof (response_cycle_keeps_answered tm response (sent nb) Hnb)
      as Hcycle.
    destruct (response_cycle json_loads tm response (sent nb))
      as [[[|]|e|] nb1]; simpl in *; try exact Hcycle.
    by apply IH.
Qed.

Lemma user_turns_keeps_answered tm user_messages :
  forall script nb,
    answered (conversation nb) = true ->
    answered
      (conversation (snd (user_turns json_loads tm user_messages script nb)))
    = true.
Proof.
  induction user_messages as [|message user_messages IH];
    intros script nb Hnb.
  - exact Hnb.
  - rewrite user_turns_cons.
    pose proof (response_loop_keeps_answered tm script (begun message nb))
      as Hloop.
    destruct (response_loop json_loads tm script (begun message nb))
      as [[script1|e|] nb1]; simpl in *;
      try (apply Hloop; by rewrite answered_app).
    apply IH. apply Hloop. by rewrite answered_app.
Qed.

Lemma find_filter_head {A} (f : A -> bool) (l : list A) :
  List.find f l = head (List.filter f l).
Proof.
  induction l as [|x l IH]; [reflexivity|].
  simpl. destruct (f x); [reflexivity | exact IH].
Qed.

End MoreFacts.

(** ** Strings *)

Lemma append_cons c a b : String c a +:+ b = String c (a +:+ b).
Proof. reflexivity. Qed.

Lemma append_assoc a b c : (a +:+ b) +:+ c = a +:+ (b +:+ c).
Proof.
  induction a as [|x a IH]; [reflexivity|].
  rewrite !append_cons. by rewrite IH.
Qed.

Lemma string_length_app a b :
  String.length (a +:+ b) = (String.length a + String.length b)%nat.
Proof.
  induction a as [|c a IH]; [reflexivity|].
  rewrite append_cons. simpl. by rewrite IH.
Qed.

Lemma prefix_append a b : String.prefix a (a +:+ b) = true.
Proof.
  induction a as [|c a IH]; [by destruct b|].
  rewrite append_cons. simpl. destruct (ascii_dec c c); [exact IH | done].
Qed.

Lemma prefix_refl a : String.prefix a a = true.
Proof.
  induction a as [|c a IH]; [reflexivity|].
  simpl. destruct (ascii_dec c c); [exact IH | done].
Qed.

Lemma substring_length s :
  forall n m,
    (n + m <= String.length s)%nat ->
    String.length (substring n m s) = m.
Proof.
  induction s as [|c s IH]; intros n m Hle; simpl in Hle.
  - assert (n = 0 /\ m = 0)%nat as [-> ->] by lia. reflexivity.
  - destruct n as [|n]; simpl.
    + destruct m as [|m]; [reflexivity|]. simpl. rewrite (IH 0%nat m); lia.
    + apply IH. lia.
Qed.

Lemma hex_length digits :
  forall n, String.length (Uuid.hex digits n) = digits.
Proof.
  induction digits as [|digits IH]; intros n; [reflexivity|].
  cbn [Uuid.hex]. rewrite string_length_app, IH. simpl. lia.
Qed.

Lemma uuid_str_length int : String.length (Uuid.str int) = 36%nat.
Proof.
  unfold Uuid.str.
  pose proof (hex_length 32 int) as Hhex.
  rewrite !string_length_app.
  rewrite !substring_length by (rewrite Hhex; lia).
  reflexivity.
Qed.

Lemma hex_get digits :
  forall n k, (k < digits)%nat ->
    String.get k (Uuid.hex digits n)
    = Some (Uuid.hex_digit ((n / 16 ^ N.of_nat (digits - 1 - k)) mod 16)%N).
Proof.
  induction digits as [|digits IH]; intros n k Hk; [lia|].
  cbn [Uuid.hex].
  destruct (decide (k = digits)) as [Heq|Hne].
  - subst k.
    pose proof (append_correct2 (Uuid.hex digits (n / 16)%N)
                  (String (Uuid.hex_digit (n mod 16)%N) "") 0) as H.
    rewrite hex_length in H. simpl in H. rewrite <- H.
    replace (S digits - 1 - digits)%nat with 0%nat by lia.
    simpl. by rewrite N.div_1_r.
  - rewrite <- append_correct1 by (rewrite hex_length; lia).
    rewrite IH by lia.
    replace (S digits - 1 - k)%nat with (S (digits - 1 - k)) by lia.
    rewrite Nat2N.inj_succ, N.pow_succ_r', N.Div0.div_div. reflexivity.
Qed.

(** The four bits from bit 76 of a version-4 integer are the version. *)
Lemma version_nibble x : ((Uuid.with_version 4 x / 16 ^ 19) mod 16 = 4)%N.
Proof.
  change (16 ^ 19)%N with (2 ^ 76)%N. rewrite <- N.shiftr_div_pow2.
  change 16%N with (2 ^ 4)%N. rewrite <- N.land_ones.
  apply N.bits_inj. intros i.
  rewrite N.land_spec, N.shiftr_spec'.
  destruct (N.ltb_spec i 4) as [Hlt|Hge].
  - rewrite N.ones_spec_low, andb_true_r by exact Hlt.
    unfold Uuid.with_version.
    rewrite N.lor_spec, N.ldiff_spec, N.lor_spec, N.ldiff_spec.
    rewrite !N.shiftl_spec_high' by lia.
    assert (i = 0 \/ i = 1 \/ i = 2 \/ i = 3)%N as Hi by lia.
    destruct Hi as [Hi|[Hi|[Hi|Hi]]]; subst i; simpl;
      rewrite ?andb_false_r, ?orb_false_r; reflexivity.
  - rewrite N.ones_spec_high, andb_false_r by exact Hge.
    symmetry. apply N.bits_above_log2. simpl. lia.
Qed.

Lemma get_after_char c k r :
  String.get (S k) (String c "" +:+ r) = String.get k r.
Proof. reflexivity. Qed.

Lemma uuid_str_version x :
  String.get 14 (Uuid.str (Uuid.with_version 4 x)) = Some "4"%char.
Proof.
  unfold Uuid.str. generalize (hex_get 32 (Uuid.with_version 4 x) 12).
  generalize (hex_length 32 (Uuid.with_version 4 x)).
  generalize (Uuid.hex 32 (Uuid.with_version 4 x)). intros h Hh Hget.
  match goal with
  | |- String.get _ (?s1 +:+ ?r) = _ =>
      pose proof (append_correct2 s1 r 6) as H
  end.
  rewrite substring_length in H by lia. cbn [Nat.add] in H.
  rewrite <- H. clear H.
  rewrite get_after_char.
  match goal with
  | |- String.get _ (?s1 +:+ ?r) = _ =>
      pose proof (append_correct2 s1 r 1) as H
  end.
  rewrite substring_length in H by lia. cbn [Nat.add] in H.
  rewrite <- H. clear H.
  rewrite get_after_char.
  rewrite <- append_correct1 by (rewrite substring_length; lia).
  rewrite substring_correct1 by lia. cbn [Nat.add].
  rewrite Hget by lia.
  change (N.of_nat (32 - 1 - 12)) with 19%N.
  rewrite version_nibble. reflexivity.
Qed.

Section Extras.

Context {World : Type}.
Variable json_loads : string -> pyobj + string.
Implicit Types (tm : gmap string (tool World)) (nb : notebook World).
Implicit Types (rx : output_item) (response : Response).

Local Open Scope py_scope.

(** X1. The helper agrees with the snippet it wraps.  Whenever the
    single-call snippet returns its list of results for a response,
    [invoke_functions_from_response] returns the same list from the same
    state, leaving the tools' world the same; the list has one result per
    function call, with its [call_id], and the snippet has printed nothing
    and touched neither the conversation, the requests nor the token
    count. *)
Theorem helper_agrees_with_snippet tm response nb outs nb1 :
  extract_function_calls json_loads response tm nb = (Returns outs, nb1) ->
  (exists nb2,
      invoke_functions_from_response json_loads response tm nb
      = (Returns outs, nb2)
      /\ world nb2 = world nb1)
  /\ Forall2 answers (function_calls_of response) outs
  /\ stdout nb1 = stdout nb
  /\ same_globals nb nb1.
Proof.
  intros Hrun. unfold extract_function_calls in Hrun.
  destruct (extract_resolve_agree json_loads tm (Response.output response)
              [] nb nb outs nb1 eq_refl Hrun) as (nb2 & Hinvoke & Hworld).
  fold (invoke_functions_from_response json_loads response tm nb) in Hinvoke.
  split; [eauto|]. split.
  - destruct (invoke_cases json_loads tm response nb)
      as (r & nb3 & Hrun3 & _ & _ & Hr).
    rewrite Hinvoke in Hrun3. injection Hrun3 as <- <-.
    eapply Forall2_impl; [exact Hr | apply resolves_answers].
  - pose proof (extract_loop_frame json_loads tm
                  (List.filter (has_type "function_call")
                               (Response.output response)) [] nb) as Hframe.
    simpl in Hframe. rewrite Hrun in Hframe. exact Hframe.
Qed.

(** X2. The snippet stops at the first failure.  Once the function calls
    before [rx] have been resolved, a call [rx] of an unregistered tool
    makes the snippet raise [ValueError], a payload that does not parse
    makes it raise [JSONDecodeError], and an exception of the tool, of any
    class, leaves it as it is: nothing is caught, and the calls after [rx]
    are not resolved. *)
Theorem snippet_stops_at_first_failure tm response pre rx post nb acc nb1 :
  function_calls_of response = pre ++ rx :: post ->
  for_loop pre (extract_item json_loads tm) [] nb = (Returns acc, nb1) ->
  (tm !! name rx = None ->
   extract_function_calls json_loads response tm nb
   = (Raises (ValueError ("No tool found for function call: " +:+ name rx)),
      nb1))
  /\ (forall t msg,
        tm !! name rx = Some t ->
        json_loads (arguments rx) = inr msg ->
        extract_function_calls json_loads response tm nb
        = (Raises (JSONDecodeError msg), nb1))
  /\ (forall t v e w,
        tm !! name rx = Some t ->
        json_loads (arguments rx) = inl v ->
        t v (world nb1) = (inr e, w) ->
        extract_function_calls json_loads response tm nb
        = (Raises e,
           Notebook w (stdout nb1) (requests nb1) (conversation nb1)
                    (total_tokens_used nb1))).
Proof.
  intros Hcalls Hpre.
  assert (has_type "function_call" rx = true) as Htype.
  { assert (In rx (function_calls_of response)) as Hin.
    { rewrite Hcalls. apply in_or_app. right. by left. }
    apply filter_In in Hin. tauto. }
  assert (extract_function_calls json_loads response tm nb
          = for_loop (rx :: post) (extract_item json_loads tm) acc nb1)
    as Hstep.
  { unfold extract_function_calls. fold (function_calls_of response).
    rewrite Hcalls, for_loop_app. unfold bind at 1. by rewrite Hpre. }
  rewrite Hstep.
  pose proof (extract_item_cases json_loads tm rx acc nb1 Htype) as Hitem.
  unfold tool in *.
  split; [|split].
  - intros Hnone. apply for_loop_raises. by rewrite Hitem, Hnone.
  - intros t msg Hsome Hmsg. apply for_loop_raises.
    by rewrite Hitem, Hsome, Hmsg.
  - intros t v e w Hsome Hv Hcall. apply for_loop_raises.
    by rewrite Hitem, Hsome, Hv, Hcall.
Qed.


(** X4. Both loops stop at the first response without function calls.
    When the script of the service is a run of responses that all have
    function calls, followed by one that has none, and the registered tools
    raise only [Exception]s, the response loop of a turn returns at that
    response, leaving the responses after it unread, having sent one
    request per response it read and counted the tokens of each; the
    [previous_response_id] loop returns there too, after as many requests,
    and the last line it prints is the output text of that response. *)
Theorem loops_stop_at_first_answer tm pre final post nb :
  registry_raises_only_Exception tm ->
  Forall (fun r => function_calls_of r <> []) pre ->
  function_calls_of final = [] ->
  (exists nb',
      response_loop json_loads tm (pre ++ final :: post) nb
      = (Returns post, nb')
      /\ length (requests nb') = (length (requests nb) + length pre + 1)%nat
      /\ total_tokens_used nb'
         = total_tokens_used nb + sum_tokens (pre ++ [final]))
  /\ (forall initial_question,
      exists nb',
        previous_response_cell json_loads tm initial_question
          (pre ++ final :: post) nb
        = (Returns tt, nb')
        /\ length (requests nb') = (length (requests nb) + length pre + 1)%nat
        /\ last (stdout nb') = Some (line (output_text final))).
Proof.
  intros Hcontract Hpre Hnone. split.
  - by apply response_loop_runs_through.
  - intros initial_question.
    unfold previous_response_cell, bind, send. simpl.
    destruct (pre ++ final :: post) as [|current rest] eqn:Hseq.
    { destruct pre; discriminate. }
    match goal with
    | |- context [previous_response_loop json_loads tm rest current ?n] =>
        destruct (previous_response_loop_runs_through json_loads tm pre final
                    post Hcontract Hpre Hnone current rest n (eq_sym Hseq))
          as (nb' & Hloop & Hlen & Hlast)
    end.
    exists nb'. split; [exact Hloop|]. split; [|exact Hlast].
    rewrite Hlen. simpl. rewrite length_app. simpl. lia.
Qed.

(** X5. The user messages of the log.  At the end of a run of the manual
    orchestration the user messages in the conversation are, in order, the
    first ones of [user_messages]: responses add none; and they are all
    of [user_messages] when the run completes. *)
Theorem user_messages_are_kept_in_order tm user_messages script nb :
  let '(r, nb') :=
    manual_orchestration json_loads tm user_messages script nb in
  exists k,
    user_messages_of (conversation nb') = take k user_messages
    /\ (r = Returns tt ->
        user_messages_of (conversation nb') = user_messages).
Proof.
  rewrite manual_orchestration_unfold.
  destruct (user_turns_user_messages json_loads tm user_messages script
              (Notebook (world nb) (stdout nb) (requests nb) [] 0))
    as (k & Hk & Hdone).
  simpl in Hk.
  destruct (user_turns json_loads tm user_messages script _)
    as [[script'|e|] nb1];
    [destruct (print_total_cases (total_tokens_used nb1) nb1)
       as [->|[e ->]]| |];
    simpl in *; exists k; (split; [exact Hk|]); try discriminate.
  intros _. rewrite Hk. by apply (Hdone script').
Qed.

(** X6. Every request resends the history.  In a run of the manual
    orchestration each request carries a log, and of any two requests the
    later one carries a log that starts with the log of the earlier one:
    nothing that was sent is later dropped or changed. *)
Theorem requests_resend_the_history tm user_messages script nb :
  exists new,
    requests
      (snd (manual_orchestration json_loads tm user_messages script nb))
    = requests nb ++ new
    /\ StronglySorted resends new
    /\ Forall (fun rq => exists log, input rq = InputItems log) new.
Proof.
  rewrite manual_orchestration_requests.
  destruct (user_turns_chain json_loads tm user_messages script
              (Notebook (world nb) (stdout nb) (requests nb) [] 0))
    as (new & Hnew & Hsorted & Hall & _).
  exists new. split; [exact Hnew|]. split; [exact Hsorted|].
  eapply Forall_impl; [exact Hall|].
  intros rq (log & Hlog & _). by exists log.
Qed.

(** X10. The log is never left with an unanswered call.  However a run
    of the manual orchestration ends (completed, left waiting for the
    service, or ended by an exception of a tool) every function call of
    the final conversation is immediately followed by the result with its
    [call_id], and there is no result without its call; calls and results
    with any given [call_id] are equally many. *)
Theorem final_log_has_every_call_answered tm user_messages script nb :
  let log :=
    conversation
      (snd (manual_orchestration json_loads tm user_messages script nb)) in
  answered log = true
  /\ forall c, count_calls c log = count_outputs c log.
Proof.
  assert (answered
            (conversation
               (snd (manual_orchestration json_loads tm user_messages
                       script nb))) = true) as Hlog.
  { destruct (manual_orchestration_globals json_loads tm user_messages
                script nb) as (_ & -> & _).
    exact (user_turns_keeps_answered json_loads tm user_messages script
             (Notebook (world nb) (stdout nb) (requests nb) [] 0) eq_refl). }
  split; [exact Hlog|]. intros c. by apply answered_counts.
Qed.

(** X7. Reading the first reasoning summary.  The cell that prints
    [summary[0].text] of the first reasoning item raises [StopIteration]
    when the response has no reasoning item and [IndexError] when that
    item has an empty summary; otherwise it prints that text and changes
    nothing else, and the text is the beginning of the summary line the
    manual loop prints for the same response. *)
Theorem first_reasoning_summary_cases response nb :
  match reasoning_of response with
  | [] =>
      print_first_reasoning_summary response nb = (Raises StopIteration, nb)
  | rx :: _ =>
      match summary rx with
      | [] =>
          print_first_reasoning_summary response nb
          = (Raises (IndexError "list index out of range"), nb)
      | text :: _ =>
          print_first_reasoning_summary response nb
          = (Returns tt, with_stdout [line text] nb)
          /\ exists joined,
               reasoning_prints response
               = [line "More reasoning required, continuing...";
                  line joined]
               /\ String.prefix text joined = true
      end
  end.
Proof.
  unfold print_first_reasoning_summary, reasoning_prints, reasoning_of.
  rewrite find_filter_head.
  destruct (List.filter (has_type "reasoning") (Response.output response))
    as [|rx rest] eqn:Hfilter; [reflexivity|].
  cbn [head].
  assert (has_type "reasoning" rx = true) as Htype.
  { assert (In rx (List.filter (has_type "reasoning")
                               (Response.output response))) as Hin
      by (rewrite Hfilter; by left).
    apply filter_In in Hin. tauto. }
  destruct rx as [id texts| | | | |]; try discriminate.
  cbn [summary]. destruct texts as [|text texts]; [reflexivity|].
  split; [reflexivity|].
  eexists. split; [reflexivity|].
  cbn [map flat_map summary_texts app].
  destruct (texts ++ flat_map summary_texts (map to_dict rest)) as [|t l];
    cbn [String.concat].
  - apply prefix_refl.
  - apply prefix_append.
Qed.

End Extras.

(** X8. The notebook's own registry.  With [tool_mapping] as the
    notebook defines it, whatever the service answers and however the
    payloads parse, [invoke_functions_from_response] returns one result
    per function call, and neither the turns of the manual orchestration
    nor the [previous_response_id] cell end with an exception:
    [get_city_uuid] called through [**arguments] raises nothing but
    [TypeError].  The manual orchestration as a whole can raise only in
    its final print, and only for a total of at least
    [200000 * (2 ^ 1024 - 2 ^ 970)] tokens, too large for the quotient
    to be a float; with non-negative counts that sum to less it does not
    raise. *)
Theorem notebook_loops_raise_only_in_the_final_print
    (json_loads : string -> pyobj + string)
    (user_messages : list string) (initial_question : string)
    (script : list Response) (response : Response)
    (nb : notebook Uuid.entropy) :
  (exists function_outputs nb',
      invoke_functions_from_response json_loads response
        notebook_tool_mapping nb
      = (Returns function_outputs, nb')
      /\ length function_outputs = length (function_calls_of response))
  /\ raises (fst (user_turns json_loads notebook_tool_mapping
                    user_messages script nb)) = false
  /\ raises (fst (previous_response_cell json_loads notebook_tool_mapping
                    initial_question script nb)) = false
  /\ (forall e,
        fst (manual_orchestration json_loads notebook_tool_mapping
               user_messages script nb) = Raises e ->
        float_division_bound
        <= Z.abs (total_tokens_used
                    (snd (manual_orchestration json_loads
                            notebook_tool_mapping user_messages script nb))))
  /\ (Forall (fun r => 0 <= Response.total_tokens r) script ->
      sum_tokens script < float_division_bound ->
      raises (fst (manual_orchestration json_loads notebook_tool_mapping
                     user_messages script nb)) = false).
Proof.
  pose proof notebook_tools_raise_only_Exception as Hcontract.
  assert (float_division_bound <= int_str_limit) as Hbounds.
  { apply Z.leb_le. vm_compute. reflexivity. }
  split; [|split; [|split; [|split]]].
  - destruct (invoke_returns json_loads notebook_tool_mapping response nb
                Hcontract) as (outs & nb' & Hrun & Hall).
    exists outs, nb'. split; [exact Hrun|].
    symmetry. eapply Forall2_length. exact Hall.
  - by apply user_turns_never_raises.
  - unfold previous_response_cell, bind, send. simpl.
    destruct script as [|first script]; [reflexivity|].
    by apply previous_response_loop_never_raises.
  - intros e. rewrite manual_orchestration_unfold.
    pose proof (user_turns_never_raises json_loads notebook_tool_mapping
                  user_messages Hcontract script
                  (Notebook (world nb) (stdout nb) (requests nb) [] 0)) as Hturns.
    destruct (user_turns json_loads notebook_tool_mapping user_messages
                script _) as [[script'|e'|] nb1]; try discriminate.
    unfold print_total.
    destruct (Z.leb_spec int_str_limit (Z.abs (total_tokens_used nb1)));
      [intros _; simpl; lia|].
    destruct (Z.leb_spec float_division_bound
                (Z.abs (total_tokens_used nb1)));
      [intros _; simpl; lia | discriminate].
  - intros Hpos Hsum. rewrite manual_orchestration_unfold.
    pose proof (user_turns_never_raises json_loads notebook_tool_mapping
                  user_messages Hcontract script
                  (Notebook (world nb) (stdout nb) (requests nb) [] 0)) as Hturns.
    destruct (user_turns_tokens json_loads notebook_tool_mapping
                user_messages script
                (Notebook (world nb) (stdout nb) (requests nb) [] 0))
      as (r & nb1 & received & rest & Hrun & Hscript & Htot & _).
    rewrite Hrun in *. destruct r as [script'|e'|]; try reflexivity;
      [|discriminate].
    simpl in Htot. subst script.
    apply Forall_app in Hpos as [Hrec Hrest].
    pose proof (sum_tokens_nonneg received Hrec).
    pose proof (sum_tokens_nonneg rest Hrest).
    rewrite sum_tokens_app in Hsum.
    unfold print_total. rewrite Htot, Z.add_0_l.
    destruct (Z.leb_spec int_str_limit (Z.abs (sum_tokens received)));
      [lia|].
    destruct (Z.leb_spec float_division_bound
                (Z.abs (sum_tokens received))); [lia | reflexivity].
Qed.

Lemma notebook_loops_raise_only_in_the_final_print_witness :
  raises (fst (manual_orchestration example_json_loads notebook_tool_mapping
                 ["id for London?"] [london_response; done_response]
                 fresh_notebook)) = false.
Proof.
  apply (notebook_loops_raise_only_in_the_final_print example_json_loads
           ["id for London?"] "id for London?"
           [london_response; done_response] london_response fresh_notebook).
  - constructor; [simpl; lia|]. constructor; [simpl; lia|]. constructor.
  - apply Z.ltb_lt. vm_compute. reflexivity.
Defined.

(** X9. The identifiers of [get_city_uuid].  The string it returns is the
    city, then [ ID: ], then a text of 36 characters whose fifteenth
    character is the version digit [4]; the call draws exactly one read
    from the entropy source and leaves the source itself as it is. *)
Theorem get_city_uuid_format (city : string) (w : Uuid.entropy) :
  let '(s, w') := get_city_uuid city w in
  String.prefix (city +:+ " ID: ") s = true
  /\ String.length s = (String.length city + 41)%nat
  /\ String.get (String.length city + 19) s = Some "4"%char
  /\ Uuid.reads w' = S (Uuid.reads w)
  /\ Uuid.urandom w' = Uuid.urandom w.
Proof.
  unfold get_city_uuid, Uuid.uuid4, Uuid.os_urandom_16.
  split; [|split; [|split; [|by split]]].
  - rewrite <- append_assoc. apply prefix_append.
  - rewrite !string_length_app, uuid_str_length. simpl. lia.
  - rewrite Nat.add_comm, <- append_correct2.
    match goal with
    | |- String.get _ (?s1 +:+ ?r) = _ =>
        pose proof (append_correct2 s1 r 14) as H
    end.
    cbn [String.length Nat.add] in H. rewrite <- H.
    apply uuid_str_version.
Qed.

(** * The further properties on the examples *)

Lemma helper_agrees_with_snippet_witness :
  exists nb2,
    invoke_functions_from_response example_json_loads london_response
      notebook_tool_mapping fresh_notebook
    = (Returns [function_call_output "call_VcyIJQnP7HW2gge7Nh8HmPNG"
                  "London ID: ce863d03-9c01-4de2-9af8-96b123852aec"], nb2).
Proof.
  destruct (helper_agrees_with_snippet example_json_loads
              notebook_tool_mapping london_response fresh_notebook
              [function_call_output "call_VcyIJQnP7HW2gge7Nh8HmPNG"
                 "London ID: ce863d03-9c01-4de2-9af8-96b123852aec"]
              (Notebook (Uuid.Entropy (Uuid.urandom counting_entropy) 1)
                        [] [] [] 0))
    as ((nb2 & Hrun & _) & _).
  - vm_compute. reflexivity.
  - exists nb2. exact Hrun.
Defined.

Lemma snippet_stops_at_first_failure_witness :
  fst (extract_function_calls example_json_loads mixed_response
         notebook_tool_mapping fresh_notebook)
  = Raises (ValueError "No tool found for function call: unknown_tool").
Proof.
  pose proof (proj1 (snippet_stops_at_first_failure example_json_loads
                       notebook_tool_mapping mixed_response
                       [london_call] unknown_call [town_call; malformed_call]
                       fresh_notebook
                       [function_call_output "call_VcyIJQnP7HW2gge7Nh8HmPNG"
                          "London ID: ce863d03-9c01-4de2-9af8-96b123852aec"]
                       (Notebook (Uuid.Entropy (Uuid.urandom counting_entropy) 1)
                                 [] [] [] 0)
                       eq_refl ltac:(vm_compute; reflexivity))
                eq_refl) as H.
  rewrite H. reflexivity.
Defined.

Lemma loops_stop_at_first_answer_witness :
  exists nb',
    response_loop example_json_loads notebook_tool_mapping
      [london_response; done_response] fresh_notebook
    = (Returns [], nb')
    /\ length (requests nb') = 2%nat.
Proof.
  destruct (proj1 (loops_stop_at_first_answer example_json_loads
                     notebook_tool_mapping [london_response] done_response []
                     fresh_notebook notebook_tools_raise_only_Exception
                     ltac:(constructor; [discriminate | constructor])
                     eq_refl))
    as (nb' & Hrun & Hlen & _).
  exists nb'. split; [exact Hrun | exact Hlen].
Defined.

Lemma user_messages_are_kept_in_order_witness :
  user_messages_of
    (conversation
       (snd (manual_orchestration example_json_loads notebook_tool_mapping
               ["id for London?"] [london_response; done_response]
               fresh_notebook)))
  = ["id for London?"].
Proof.
  pose proof (user_messages_are_kept_in_order example_json_loads
                notebook_tool_mapping ["id for London?"]
                [london_response; done_response] fresh_notebook) as H.
  destruct (manual_orchestration example_json_loads notebook_tool_mapping
              ["id for London?"] [london_response; done_response]
              fresh_notebook) as [r nb'] eqn:Hrun.
  destruct H as (k & _ & Hdone). simpl. apply Hdone.
  apply (f_equal fst) in Hrun. vm_compute in Hrun. congruence.
Defined.

